(* Verification development for the Hive account faucet backend
   (src/backend/services/blockchain-monitor.js, src/unnamed/part_001:
   UserManager and EmailService). *)

From Stdlib Require Import String Ascii List ZArith Bool Lia.
From stdpp Require Import base strings gmap.
Import ListNotations.
Open Scope string_scope.
Set Warnings "-register-all".

(* ================================================================== *)
(** * JavaScript values as JSON.parse produces them                   *)
(* ================================================================== *)

Module Js.

(** A value of the JSON fragment of JavaScript.  Numbers are the
    integral ones (the request envelope carries no fractions);
    [JUndef] is what a missing property reads as. *)
Inductive jsval : Type :=
| JUndef
| JNull
| JBool (b : bool)
| JNum (n : Z)
| JStr (s : string)
| JArr (xs : list jsval)
| JObj (fields : list (string * jsval)).

(** Property lookup on an object literal: JSON.parse keeps the last
    occurrence of a duplicated key. *)
Fixpoint obj_lookup (k : string) (fs : list (string * jsval)) : jsval :=
  match fs with
  | [] => JUndef
  | (k', v) :: rest =>
      match obj_lookup k rest with
      | JUndef => if String.eqb k k' then v else JUndef
      | w => w
      end
  end.

(** [v.k]: reading a property of [undefined] or [null] throws a
    TypeError ([None]); primitives and arrays have none of the
    property names used by the code, so they read [undefined]. *)
Definition get (v : jsval) (k : string) : option jsval :=
  match v with
  | JUndef | JNull => None
  | JObj fs => Some (obj_lookup k fs)
  | _ => Some JUndef
  end.

(** JavaScript truthiness. *)
Definition truthy (v : jsval) : bool :=
  match v with
  | JUndef | JNull => false
  | JBool b => b
  | JNum n => negb (Z.eqb n 0)
  | JStr s => negb (String.eqb s "")
  | JArr _ | JObj _ => true
  end.

(** [v === "lit"] for a string literal. *)
Definition strict_eq_str (v : jsval) (lit : string) : bool :=
  match v with
  | JStr s => String.eqb s lit
  | _ => false
  end.

(** Sequencing of property reads that may throw. *)
Notation "'let?' x := m 'in' k" :=
  (match m with None => None | Some x => k end)
  (at level 200, x name, m at level 100, k at level 200).

(** [a && b]: returns [a] when it is falsy, otherwise evaluates [b]. *)
Definition js_and (a : jsval) (b : unit -> option jsval) : option jsval :=
  if truthy a then b tt else Some a.

(** [validateRequest(data)] (blockchain-monitor.js, lines 280-289):
    the [&&] chain is evaluated left to right and lazily; the result
    is the last operand evaluated, not a boolean.  [None] is a thrown
    TypeError. *)
Definition validateRequest (data : jsval) : option jsval :=
  let? app := get data "app" in
  js_and (JBool (strict_eq_str app "hive_account_faucet")) (fun _ =>
  let? version := get data "version" in
  js_and (JBool (strict_eq_str version "1.0.0")) (fun _ =>
  let? action := get data "action" in
  js_and (JBool (strict_eq_str action "create_account_request")) (fun _ =>
  let? dd := get data "data" in
  js_and dd (fun _ =>
  let? ru := get dd "requested_username" in
  js_and ru (fun _ =>
  get dd "delivery_method"))))).

End Js.

(* ================================================================== *)
(** * JavaScript numbers: IEEE-754 doubles                            *)
(* ================================================================== *)

Module JsNum.
Local Open Scope Z_scope.

(** A JavaScript number.  The ledger's counts are integers (literals
    of the data file, [parseInt] results and their sums), so a finite
    double is kept as the integer it denotes. *)
Inductive num : Type :=
| Fin (z : Z)
| PInf
| NInf
| NaN.

(** Rounding a non-negative integer to the nearest double, ties to
    the even significand, with an unbounded exponent: exact up to
    2^53, above it the 53 leading bits are kept. *)
Definition rnd_mag (n : Z) : Z :=
  if n <=? 2 ^ 53 then n
  else
    let e := Z.log2 n - 52 in
    let q := n / 2 ^ e in
    let r := n mod 2 ^ e in
    let h := 2 ^ (e - 1) in
    if (h <? r) || ((r =? h) && Z.odd q) then (q + 1) * 2 ^ e else q * 2 ^ e.

(** The double nearest to an integer: magnitudes rounding to 2^1024 or
    more overflow to an infinity of the same sign. *)
Definition round (z : Z) : num :=
  let m := rnd_mag (Z.abs z) in
  if 2 ^ 1024 <=? m then (if z <? 0 then NInf else PInf)
  else if z <? 0 then Fin (- m) else Fin m.

Definition neg (a : num) : num :=
  match a with
  | Fin z => Fin (- z)
  | PInf => NInf
  | NInf => PInf
  | NaN => NaN
  end.

(** [a + b]. *)
Definition add (a b : num) : num :=
  match a, b with
  | Fin x, Fin y => round (x + y)
  | NaN, _ | _, NaN => NaN
  | PInf, NInf | NInf, PInf => NaN
  | PInf, _ | _, PInf => PInf
  | NInf, _ | _, NInf => NInf
  end.

(** [a - b], which IEEE-754 defines as [a + (-b)]. *)
Definition sub (a b : num) : num := add a (neg b).

(** [a <= b]: false as soon as one side is NaN. *)
Definition le (a b : num) : bool :=
  match a, b with
  | NaN, _ | _, NaN => false
  | NInf, _ | _, PInf => true
  | PInf, _ | _, NInf => false
  | Fin x, Fin y => Z.leb x y
  end.

(** A number field of the data file: [JSON.stringify] writes NaN and
    the infinities as [null]. *)
Inductive jnum : Type :=
| FNum (z : Z)
| FNull.

(** The value arithmetic and comparisons read from a field: [null]
    converts to 0. *)
Definition fz (x : jnum) : Z :=
  match x with FNum z => z | FNull => 0 end.

Definition of_file (x : jnum) : num := Fin (fz x).

(** What [JSON.stringify] writes for a number. *)
Definition to_file (a : num) : jnum :=
  match a with Fin z => FNum z | _ => FNull end.

End JsNum.

(* ================================================================== *)
(** * Quota ledger: UserManager (src/unnamed/part_001, lines 1-246)   *)
(* ================================================================== *)

Module Quota.
Import JsNum.
Local Open Scope Z_scope.

(** One entry of [authorized_users]. *)
Record user : Type := mkUser {
  tokens_allocated : jnum;
  tokens_used : jnum;
  tokens_remaining : jnum;
  email : option string;
  created_at : string;
  last_used : option string;
  is_active : bool;
  notes : string
}.

Record metadata : Type := mkMeta {
  meta_created_at : string;
  last_updated : string;
  total_users : jnum;
  total_tokens_allocated : jnum;
  total_tokens_used : jnum
}.

(** The content of [authorized_users.json]. *)
Record udata : Type := mkData {
  authorized_users : gmap string user;
  meta : metadata
}.

(** The data file as [loadData] sees it: [None] when reading or
    parsing fails ([loadData] returns [null]). *)
Definition ufile := option udata.

Definition loadData (f : ufile) : option udata := f.

(** The properties every object parsed by [JSON.parse] inherits from
    [Object.prototype]: [authorized_users[name]] is truthy for them
    even without a record of that name. *)
Definition inherited_names : list string :=
  ["constructor"; "__defineGetter__"; "__defineSetter__"; "hasOwnProperty";
   "__lookupGetter__"; "__lookupSetter__"; "isPrototypeOf";
   "propertyIsEnumerable"; "toString"; "valueOf"; "__proto__";
   "toLocaleString"].

Definition inherited_name (k : string) : bool :=
  existsb (String.eqb k) inherited_names.

(** [data.authorized_users[name]]: the record of that name, else an
    inherited member of [Object.prototype] (a function or the
    prototype itself, with none of the record's properties: they read
    [undefined] and writes to them are not serialized), else
    [undefined].  Each command of the admin tool runs in a fresh
    process, and the monitor calls the mutating methods only on
    requesters [checkAuthorization] accepted, so the inherited members
    are the pristine ones. *)
Inductive entry : Type :=
| Own (u : user)
| Inherited
| Absent.

Definition lookup_entry (d : udata) (k : string) : entry :=
  match authorized_users d !! k with
  | Some u => Own u
  | None => if inherited_name k then Inherited else Absent
  end.

(** How [fs.writeFileSync] ends: the file is written; it throws
    before touching the file (for instance a read-only file); or it
    throws after truncating it (for instance a full disk), leaving a
    file [JSON.parse] rejects. *)
Inductive wres : Type :=
| WDone
| WRefused
| WTorn.

Definition set_last_updated (now : string) (m : metadata) : metadata :=
  mkMeta (meta_created_at m) now (total_users m)
         (total_tokens_allocated m) (total_tokens_used m).

(** [saveData(data)] (lines 50-59): stamps [last_updated], writes the
    file and returns [true]; when [writeFileSync] throws it returns
    [false]. *)
Definition saveData (w : wres) (now : string) (f : ufile) (d : udata) : ufile * bool :=
  match w with
  | WDone => (Some (mkData (authorized_users d) (set_last_updated now (meta d))), true)
  | WRefused => (f, false)
  | WTorn => (None, false)
  end.

(** [checkAuthorization(username)] (lines 64-101), read-only. *)
Inductive auth_result : Type :=
| AuthRejected (reason : string)
| AuthOk (remaining used allocated : jnum) (user_info : user).

Definition checkAuthorization (f : ufile) (username : string) : auth_result :=
  match loadData f with
  | None => AuthRejected "Database error"
  | Some d =>
      match lookup_entry d username with
      | Absent => AuthRejected "User not found in authorized list"
      | Inherited => AuthRejected "User account is deactivated"
      | Own u =>
          if negb (is_active u) then AuthRejected "User account is deactivated"
          else if le (of_file (tokens_remaining u)) (Fin 0)
          then AuthRejected "No tokens remaining"
          else AuthOk (tokens_remaining u) (tokens_used u) (tokens_allocated u) u
      end
  end.

Definition with_total_users (m : metadata) (x : jnum) : metadata :=
  mkMeta (meta_created_at m) (last_updated m) x
         (total_tokens_allocated m) (total_tokens_used m).

Definition with_total_allocated (m : metadata) (x : jnum) : metadata :=
  mkMeta (meta_created_at m) (last_updated m) (total_users m) x (total_tokens_used m).

Definition with_total_used (m : metadata) (x : jnum) : metadata :=
  mkMeta (meta_created_at m) (last_updated m) (total_users m)
         (total_tokens_allocated m) x.

(** [useToken(username)] (lines 106-125).  On an inherited name the
    guard reads [undefined <= 0], which is false. *)
Definition useToken (now : string) (w : wres) (f : ufile) (username : string)
    : ufile * bool :=
  match loadData f with
  | None => (f, false)
  | Some d =>
      let m := meta d in
      let m' := with_total_used m (to_file (add (of_file (total_tokens_used m)) (Fin 1))) in
      match lookup_entry d username with
      | Absent => (f, false)
      | Inherited => saveData w now f (mkData (authorized_users d) m')
      | Own u =>
          if le (of_file (tokens_remaining u)) (Fin 0) then (f, false)
          else
            let u' := mkUser (tokens_allocated u)
                        (to_file (add (of_file (tokens_used u)) (Fin 1)))
                        (to_file (sub (of_file (tokens_remaining u)) (Fin 1)))
                        (email u) (created_at u) (Some now) (is_active u) (notes u) in
            saveData w now f (mkData (<[username := u']> (authorized_users d)) m')
      end
  end.

(** [addUser(username, tokens = 5, email = null, notes = '')]
    (lines 130-158); the admin tool passes [parseInt(args[2]) || 5].
    Its result is [false] on an unreadable file and the object's
    [success] otherwise. *)
Definition addUser (now : string) (w : wres) (f : ufile) (username : string)
    (tokens : num) (mail : option string) (nts : string) : ufile * bool :=
  match loadData f with
  | None => (f, false)
  | Some d =>
      match lookup_entry d username with
      | Own _ | Inherited => (f, false)
      | Absent =>
          let u := mkUser (to_file tokens) (FNum 0) (to_file tokens) mail now None true nts in
          let m := meta d in
          let m1 := with_total_users m (to_file (add (of_file (total_users m)) (Fin 1))) in
          let m2 := with_total_allocated m1
                      (to_file (add (of_file (total_tokens_allocated m)) tokens)) in
          saveData w now f (mkData (<[username := u]> (authorized_users d)) m2)
      end
  end.

(** [giveTokens(username, additionalTokens)] (lines 163-181). *)
Definition giveTokens (now : string) (w : wres) (f : ufile) (username : string)
    (additionalTokens : num) : ufile * bool :=
  match loadData f with
  | None => (f, false)
  | Some d =>
      let m := meta d in
      let m' := with_total_allocated m
                  (to_file (add (of_file (total_tokens_allocated m)) additionalTokens)) in
      match lookup_entry d username with
      | Absent => (f, false)
      | Inherited => saveData w now f (mkData (authorized_users d) m')
      | Own u =>
          let u' := mkUser (to_file (add (of_file (tokens_allocated u)) additionalTokens))
                      (tokens_used u)
                      (to_file (add (of_file (tokens_remaining u)) additionalTokens))
                      (email u) (created_at u) (last_used u) (is_active u) (notes u) in
          saveData w now f (mkData (<[username := u']> (authorized_users d)) m')
      end
  end.

(** [setTokens(username, newTotal)] (lines 186-206).  On an inherited
    name [newTotal - user.tokens_allocated] is NaN. *)
Definition setTokens (now : string) (w : wres) (f : ufile) (username : string)
    (newTotal : num) : ufile * bool :=
  match loadData f with
  | None => (f, false)
  | Some d =>
      let m := meta d in
      match lookup_entry d username with
      | Absent => (f, false)
      | Inherited =>
          let difference := sub newTotal NaN in
          let m' := with_total_allocated m
                      (to_file (add (of_file (total_tokens_allocated m)) difference)) in
          saveData w now f (mkData (authorized_users d) m')
      | Own u =>
          let difference := sub newTotal (of_file (tokens_allocated u)) in
          let u' := mkUser (to_file newTotal) (tokens_used u)
                      (to_file (sub newTotal (of_file (tokens_used u))))
                      (email u) (created_at u) (last_used u) (is_active u) (notes u) in
          let m' := with_total_allocated m
                      (to_file (add (of_file (total_tokens_allocated m)) difference)) in
          saveData w now f (mkData (<[username := u']> (authorized_users d)) m')
      end
  end.

(** [setUserStatus(username, isActive)] (lines 211-223). *)
Definition setUserStatus (now : string) (w : wres) (f : ufile) (username : string)
    (isActive : bool) : ufile * bool :=
  match loadData f with
  | None => (f, false)
  | Some d =>
      match lookup_entry d username with
      | Absent => (f, false)
      | Inherited => saveData w now f d
      | Own u =>
          let u' := mkUser (tokens_allocated u) (tokens_used u) (tokens_remaining u)
                      (email u) (created_at u) (last_used u) isActive (notes u) in
          saveData w now f (mkData (<[username := u']> (authorized_users d)) (meta d))
      end
  end.

(** [getUser(username)] (lines 237-243): [null] is [Absent]. *)
Definition getUser (f : ufile) (username : string) : entry :=
  match loadData f with
  | None => Absent
  | Some d => lookup_entry d username
  end.

(** The records of a data file (none when it cannot be loaded). *)
Definition users_of (f : ufile) : gmap string user :=
  match f with None => ∅ | Some d => authorized_users d end.

(** The four Quota Ledger mutations. *)
Inductive mutation : Type :=
| MUseToken (username : string)
| MAddUser (username : string) (tokens : num) (mail : option string) (nts : string)
| MGiveTokens (username : string) (additionalTokens : num)
| MSetTokens (username : string) (newTotal : num).

Definition run_mutation (now : string) (w : wres) (f : ufile) (m : mutation) : ufile :=
  match m with
  | MUseToken u => fst (useToken now w f u)
  | MAddUser u t e n => fst (addUser now w f u t e n)
  | MGiveTokens u k => fst (giveTokens now w f u k)
  | MSetTokens u k => fst (setTokens now w f u k)
  end.

(** The record a mutation names. *)
Definition target (m : mutation) : string :=
  match m with
  | MUseToken u | MAddUser u _ _ _ | MGiveTokens u _ | MSetTokens u _ => u
  end.

(** Every record satisfies [tokens_used + tokens_remaining = tokens_allocated]. *)
Definition balanced (f : ufile) : Prop :=
  forall k u, users_of f !! k = Some u ->
    fz (tokens_used u) + fz (tokens_remaining u) = fz (tokens_allocated u).

(** Every record has [tokens_remaining >= 0]. *)
Definition nonneg (f : ufile) : Prop :=
  forall k u, users_of f !! k = Some u -> 0 <= fz (tokens_remaining u).

(** Every record of [f] is still in [f'], and one whose [tokens_used]
    lies in [[0, 2^53)] has no smaller [tokens_used] there. *)
Definition used_le (f f' : ufile) : Prop :=
  forall k u, users_of f !! k = Some u ->
    exists u', users_of f' !! k = Some u' /\
      (0 <= fz (tokens_used u) < 2 ^ 53 -> fz (tokens_used u) <= fz (tokens_used u')).

(** The arguments under which a mutation cannot drive a balance below
    zero, as the JavaScript comparisons evaluate them. *)
Definition mutation_guard (f : ufile) (m : mutation) : Prop :=
  match m with
  | MUseToken _ => True
  | MAddUser _ t _ _ => le (Fin 0) t = true
  | MGiveTokens u k => forall usr, users_of f !! u = Some usr ->
      le (neg (of_file (tokens_remaining usr))) k = true
  | MSetTokens u n => forall usr, users_of f !! u = Some usr ->
      le (of_file (tokens_used usr)) n = true
  end.

(** The arguments under which a mutation overdraws the named record:
    a non-negative total below [tokens_used], or an amount in
    [[-2^53, -tokens_remaining)]. *)
Definition mutation_overdraws (f : ufile) (m : mutation) : Prop :=
  match m with
  | MSetTokens u (Fin n) => exists usr, users_of f !! u = Some usr /\
      0 <= n < fz (tokens_used usr) /\ fz (tokens_used usr) < 2 ^ 53
  | MGiveTokens u (Fin k) => exists usr, users_of f !! u = Some usr /\
      0 <= fz (tokens_remaining usr) /\ - 2 ^ 53 <= k < - fz (tokens_remaining usr)
  | _ => False
  end.

(** Sum of a per-record quantity over all records. *)
Definition sum_with (g : user -> Z) (m : gmap string user) : Z :=
  map_fold (fun _ u acc => g u + acc) 0 m.

(** The aggregate [metadata] block agrees with the records: the user
    count and the sums of allocated and used tokens. *)
Definition meta_consistent (f : ufile) : Prop :=
  match f with
  | None => True
  | Some d =>
      fz (total_users (meta d)) = Z.of_nat (size (authorized_users d)) /\
      fz (total_tokens_allocated (meta d)) =
        sum_with (fun u => fz (tokens_allocated u)) (authorized_users d) /\
      fz (total_tokens_used (meta d)) =
        sum_with (fun u => fz (tokens_used u)) (authorized_users d)
  end.

(** Every count of the file (the three per record and the three
    totals) is at most [b] in magnitude. *)
Definition counts_within (b : Z) (f : ufile) : Prop :=
  match f with
  | None => True
  | Some d =>
      (forall k u, authorized_users d !! k = Some u ->
         Z.abs (fz (tokens_allocated u)) <= b /\ Z.abs (fz (tokens_used u)) <= b /\
         Z.abs (fz (tokens_remaining u)) <= b) /\
      Z.abs (fz (total_users (meta d))) <= b /\
      Z.abs (fz (total_tokens_allocated (meta d))) <= b /\
      Z.abs (fz (total_tokens_used (meta d))) <= b
  end.

(** The amount a mutation adds or sets is a finite number of
    magnitude at most [b]. *)
Definition amount_within (b : Z) (m : mutation) : Prop :=
  match m with
  | MUseToken _ => True
  | MAddUser _ t _ _ | MGiveTokens _ t | MSetTokens _ t =>
      exists z, t = Fin z /\ Z.abs z <= b
  end.

(** Every [tokens_used] and [total_tokens_used] is below 2^53 in
    magnitude: fewer tokens were spent than doubles count exactly. *)
Definition used_safe (f : ufile) : Prop :=
  match f with
  | None => True
  | Some d =>
      (forall k u, authorized_users d !! k = Some u -> Z.abs (fz (tokens_used u)) < 2 ^ 53) /\
      Z.abs (fz (total_tokens_used (meta d))) < 2 ^ 53
  end.

(** A ledger with one requester, alice: 5 allocated, 3 used. *)
Definition alice : user :=
  mkUser (FNum 5) (FNum 3) (FNum 2) (Some "alice@example.com")
         "2025-01-01T00:00:00.000Z" None true "".

Definition sample_meta : metadata :=
  mkMeta "2025-01-01T00:00:00.000Z" "2025-01-01T00:00:00.000Z" (FNum 1) (FNum 5) (FNum 3).

Definition sample_users : ufile :=
  Some (mkData (<["alice" := alice]> ∅) sample_meta).

(** The data of that file. *)
Definition alice_data : udata := mkData (<["alice" := alice]> ∅) sample_meta.

(** A ledger holding carol: 6 allocated, 3 used, 3 remaining. *)
Definition carol : user :=
  mkUser (FNum 6) (FNum 3) (FNum 3) None "2025-01-01T00:00:00.000Z" None true "".

Definition carol_data : udata :=
  mkData (<["carol" := carol]> ∅)
    (mkMeta "2025-01-01T00:00:00.000Z" "2025-01-01T00:00:00.000Z" (FNum 1) (FNum 6) (FNum 3)).

End Quota.

(* ================================================================== *)
(** * Pending-credentials store (blockchain-monitor.js, lines 60-95)  *)
(* ================================================================== *)

Module Pending.

(** The object [addPending] is called with (lines 364-374). *)
Record precord : Type := mkPending {
  username : string;
  p_created_at : string;
  requester : string;
  masterPassword : string;
  ownerKey : string;
  activeKey : string;
  postingKey : string;
  memoKey : string;
  transactionId : string
}.

(** [pending_credentials.json] as [loadPending] reads it: missing,
    unreadable, text JSON.parse rejects, or a parsed JSON document
    whose [pending] field is [Some] list, or [None] when the field is
    absent or falsy.  A document written by [savePending] is
    [PParsed (Some list)]. *)
Inductive pfile : Type :=
| PMissing
| PUnreadable
| PMalformed (raw : string)
| PParsed (pending : option (list precord)).

(** [loadPending()]: [JSON.parse(raw).pending || []], any exception
    answered by [[]]. *)
Definition loadPending (f : pfile) : list precord :=
  match f with
  | PParsed (Some l) => l
  | _ => []
  end.

(** [savePending(list)]: [writeFileSync(recoveryFile,
    JSON.stringify({ pending: list }, null, 2))], read back by
    [JSON.parse] as the same list.  The write is taken to complete; a
    failing write is only logged by the code and is not modelled.  The
    byte-level write and its crash behaviour are in [WriteProtocol]. *)
Definition savePending (l : list precord) : pfile := PParsed (Some l).

(** [addPending(record)]. *)
Definition addPending (f : pfile) (r : precord) : pfile :=
  savePending (loadPending f ++ [r]).

(** [removePending(username)]: [filter(r => r.username !== username)]. *)
Definition removePending (f : pfile) (u : string) : pfile :=
  savePending (filter (fun r => negb (String.eqb (username r) u)) (loadPending f)).

(** The store holds a record for resource name [u]. *)
Definition holds (f : pfile) (u : string) : Prop :=
  exists r, In r (loadPending f) /\ username r = u.

(** A sample record. *)
Definition sample_record : precord :=
  mkPending "newuser3" "2025-01-02T00:00:00.000Z" "alice" "P5abc"
            "5Kowner" "5Kactive" "5Kposting" "5Kmemo" "tx1".

End Pending.

(* ================================================================== *)
(** * Request pipeline (blockchain-monitor.js, lines 294-671)         *)
(* ================================================================== *)

Module Pipeline.
Import Quota Pending.
Local Open Scope Z_scope.

(** Chain account as the RPC nodes return it; [hbd_milli] is the HBD
    balance in thousandths ([parseFloat] of ["x.yyy HBD"]). *)
Record account : Type := mkAccount { memo_key : string; hbd_milli : Z }.

(** Answer of [getAccounts([name])]. *)
Inductive rpc : Type :=
| RpcErr (msg : string)
| RpcOk (accts : list account).

(** Completion of a broadcast or a mail transport call. *)
Inductive outcome : Type :=
| OErr (msg : string)
| OOk (id : string).

(** The outside world seen by one [processAccountRequest] call. *)
Record env : Type := mkEnv {
  now : string;                                 (* new Date().toISOString() *)
  random_bytes : list Z;                        (* crypto.randomBytes(32) *)
  from_seed : string -> string;                 (* PrivateKey.fromSeed(s).toString() *)
  public_of : string -> string;                 (* key.createPublic().toString() *)
  get_accounts : string -> rpc;                 (* database / api getAccounts *)
  create_broadcast : outcome;                   (* broadcast.sendOperations *)
  email_configured : bool;                      (* EmailService.isConfigured *)
  email_transport : outcome;                    (* transporter.sendMail *)
  memo_encode : string -> string -> string -> outcome;  (* hive.memo.encode *)
  transfer_broadcast : outcome;                 (* hive.broadcast.transfer *)
  ledger_write : wres                           (* writeFileSync of the data file *)
}.

(** Operator configuration read from the environment variables. *)
Record config : Type := mkConfig {
  creatingAccount : string;
  creatingActiveKey : string;
  creatingMemoKey : option string
}.

(** Externally visible actions. *)
Inductive effect : Type :=
| ECreateAccount (creator name : string)
| ESendMail (to : string)
| ETransfer (from to amount memo : string).

(** A delivery channel's result object [{ success, error }]. *)
Record chan : Type := mkChan { success : bool; error : option string }.

Definition chan_fail (m : string) : chan := mkChan false (Some m).

(** [haystack.includes(needle)]. *)
Fixpoint includes (haystack needle : string) : bool :=
  String.prefix needle haystack ||
  match haystack with
  | EmptyString => false
  | String _ rest => includes rest needle
  end.

(** [generateMasterPassword()] (lines 570-588) from the 32 random bytes. *)
Definition base58Chars : string :=
  "123456789ABCDEFGHJKLMNPQRSTUVWXYZabcdefghijkmnopqrstuvwxyz".

Fixpoint password_chars (bytes : list Z) (i k : nat) : string :=
  match k with
  | O => EmptyString
  | S k' =>
      let b := nth (Nat.modulo i (List.length bytes)) bytes 0 in
      let idx := Z.to_nat (Z.modulo b (Z.of_nat (String.length base58Chars))) in
      match String.get idx base58Chars with
      | Some c => String c (password_chars bytes (S i) k')
      | None => password_chars bytes (S i) k'
      end
  end.

Definition generateMasterPassword (bytes : list Z) : string :=
  "P5" ++ password_chars bytes 0 50.

(** [generateAccountKeys(username, masterPassword)] (lines 676-697). *)
Record keys : Type := mkKeys {
  k_owner : string; k_active : string; k_posting : string; k_memo : string;
  k_ownerPublic : string; k_activePublic : string;
  k_postingPublic : string; k_memoPublic : string
}.

Definition generateAccountKeys (e : env) (u mp : string) : keys :=
  let o := from_seed e (u ++ "owner" ++ mp) in
  let a := from_seed e (u ++ "active" ++ mp) in
  let p := from_seed e (u ++ "posting" ++ mp) in
  let m := from_seed e (u ++ "memo" ++ mp) in
  mkKeys o a p m (public_of e o) (public_of e a) (public_of e p) (public_of e m).

(** [checkUsernameAvailability(username)] (lines 593-601). *)
Definition checkUsernameAvailability (e : env) (u : string) : bool :=
  match get_accounts e u with
  | RpcErr _ => false
  | RpcOk l => Nat.eqb (List.length l) 0
  end.

(** [createHiveAccount(...)] (lines 606-671): [inl txid] on success,
    [inr message] on failure. *)
Definition createHiveAccount (e : env) (u : string) (creator : string)
    : (string + string) * list effect :=
  if negb (checkUsernameAvailability e u)
  then (inr ("Username @" ++ u ++ " is already taken"), [])
  else match create_broadcast e with
       | OOk id => (inl id, [ECreateAccount creator u])
       | OErr m => (inr m, [ECreateAccount creator u])
       end.

(** [checkHBDBalance] and [canSendMemo] (lines 536-565). *)
Definition checkHBDBalance (e : env) (u : string) : Z :=
  match get_accounts e u with
  | RpcOk (a :: _) => hbd_milli a
  | _ => 0
  end.

Definition canSendMemo (e : env) (u : string) : bool :=
  Z.leb 1 (checkHBDBalance e u).

(** [sendAccountCredentials(userEmail, accountData)] (part_001,
    lines 279-321). *)
Definition sendAccountCredentials (e : env) (userEmail : string) : chan * list effect :=
  if email_configured e then
    match email_transport e with
    | OOk _ => (mkChan true None, [ESendMail userEmail])
    | OErr m => (chan_fail m, [ESendMail userEmail])
    end
  else (mkChan false None, []).

(** The memo text (line 454). *)
Definition memoMessage (u mp : string) : string :=
  "Account created: " ++ u ++ String "010" ("Master Password: " ++ mp ++
  String "010" (String "010" "Import this to Keychain to access your account.")).

(** [sendAccountMemo(recipientUsername, accountData)] (lines 449-531),
    signing with [memoKeyPriv] ([this.creatingMemoKey]). *)
Definition sendAccountMemo (e : env) (cfg : config) (memoKeyPriv : string)
    (recipient u mp : string) : chan * list effect :=
  match get_accounts e recipient with
  | RpcErr m => (chan_fail m, [])
  | RpcOk [] => (chan_fail ("Recipient account @" ++ recipient ++ " not found"), [])
  | RpcOk (a :: _) =>
      match memo_encode e memoKeyPriv (memo_key a) ("#" ++ memoMessage u mp) with
      | OErr m => (chan_fail m, [])
      | OOk encryptedMemo =>
          if includes encryptedMemo u || includes encryptedMemo mp
          then (chan_fail "Memo encryption failed - security risk detected", [])
          else
            let eff := [ETransfer (creatingAccount cfg) recipient "0.001 HBD" encryptedMemo] in
            match transfer_broadcast e with
            | OErr m => (chan_fail m, eff)
            | OOk _ => (mkChan true None, eff)
            end
      end
  end.

(** [String.prototype.trim] over the ASCII white-space characters. *)
Definition is_ws (c : ascii) : bool :=
  let n := nat_of_ascii c in
  Nat.eqb n 32 || (Nat.leb 9 n && Nat.leb n 13).

Fixpoint trim_left (s : string) : string :=
  match s with
  | EmptyString => EmptyString
  | String c rest => if is_ws c then trim_left rest else s
  end.

Definition rev_string (s : string) : string :=
  string_of_list_ascii (List.rev (list_ascii_of_string s)).

Definition trim (s : string) : string :=
  rev_string (trim_left (rev_string (trim_left s))).

(** [requesterEmail]: [user_info.email] when truthy, else [null]. *)
Definition requesterEmail (ui : user) : option string :=
  match email ui with
  | Some em => if String.eqb em "" then None else Some em
  | None => None
  end.

(** Step 3 of [processAccountRequest] (lines 377-420): the email
    channel, the memo channel and [overallSuccess]. *)
Definition email_channel (e : env) (method : string) (mail : option string)
    : chan * list effect :=
  if String.eqb method "email" || String.eqb method "both" then
    match mail with
    | Some em =>
        if negb (String.eqb (trim em) "") then sendAccountCredentials e em
        else (chan_fail "No registered email", [])
    | None => (chan_fail "No registered email", [])
    end
  else (mkChan false None, []).

Definition memo_channel (e : env) (cfg : config) (method requester u mp : string)
    : chan * list effect :=
  if String.eqb method "hive_memo" || String.eqb method "both" then
    if negb (canSendMemo e (creatingAccount cfg))
    then (chan_fail "Insufficient HBD for memo transfer", [])
    else match creatingMemoKey cfg with
         | None => (chan_fail "Missing faucet memo key", [])
         | Some k =>
             if String.eqb k "" then (chan_fail "Missing faucet memo key", [])
             else sendAccountMemo e cfg k requester u mp
         end
  else (mkChan false None, []).

Definition overallSuccess (method : string) (emailResult memoResult : chan) : bool :=
  if String.eqb method "both"
  then success emailResult && success memoResult
  else success emailResult || success memoResult.

Record delivery : Type := mkDelivery {
  emailResult : chan;
  memoResult : chan;
  overall : bool;
  delivery_effects : list effect
}.

Definition deliver (e : env) (cfg : config) (method : string) (ui : user)
    (requester u mp : string) : delivery :=
  let (er, eff1) := email_channel e method (requesterEmail ui) in
  let (mr, eff2) := memo_channel e cfg method requester u mp in
  mkDelivery er mr (overallSuccess method er mr) (List.app eff1 eff2).

(** The files the pipeline mutates. *)
Record state : Type := mkState { st_users : ufile; st_pending : pfile }.

(** The fields of a validated request the pipeline reads. *)
Record request : Type := mkRequest {
  req_requester : string;        (* request.requester *)
  req_username : string;         (* request.data.requested_username *)
  req_method : string            (* request.data.delivery_method *)
}.

(** [processAccountRequest(request)] (lines 294-444). *)
Definition processAccountRequest (e : env) (cfg : config) (st : state)
    (req : request) : state * list effect :=
  let rq := req_requester req in
  let u := req_username req in
  match checkAuthorization (st_users st) rq with
  | AuthRejected _ => (st, [])
  | AuthOk _ _ _ ui =>
      let mp := generateMasterPassword (random_bytes e) in
      let ks := generateAccountKeys e u mp in
      let (cr, eff1) := createHiveAccount e u (creatingAccount cfg) in
      match cr with
      | inr _ => (st, eff1)
      | inl txid =>
          let rec := mkPending u (now e) rq mp (k_owner ks) (k_active ks)
                       (k_posting ks) (k_memo ks) txid in
          let pend1 := addPending (st_pending st) rec in
          let d := deliver e cfg (req_method req) ui rq u mp in
          if overall d then
            let users' := fst (useToken (now e) (ledger_write e) (st_users st) rq) in
            (mkState users' (removePending pend1 u), List.app eff1 (delivery_effects d))
          else (mkState (st_users st) pend1, List.app eff1 (delivery_effects d))
      end
  end.

(** The delivery computed by a request that reaches step 3, if any. *)
Definition delivery_of (e : env) (cfg : config) (st : state) (req : request)
    : option delivery :=
  match checkAuthorization (st_users st) (req_requester req) with
  | AuthRejected _ => None
  | AuthOk _ _ _ ui =>
      let mp := generateMasterPassword (random_bytes e) in
      match fst (createHiveAccount e (req_username req) (creatingAccount cfg)) with
      | inr _ => None
      | inl _ => Some (deliver e cfg (req_method req) ui (req_requester req)
                         (req_username req) mp)
      end
  end.

(** A concrete world: alice holds no HBD, the faucet holds 0.005. *)
Definition sample_get_accounts (n : string) : rpc :=
  if String.eqb n "alice" then RpcOk [mkAccount "STM7alice" 0]
  else if String.eqb n "faucet" then RpcOk [mkAccount "STM7faucet" 5]
  else RpcOk [].

Definition sample_env (create mail transfer : outcome)
    (encode : string -> string -> string -> outcome) : env :=
  mkEnv "2025-01-02T00:00:00.000Z" (List.map Z.of_nat (seq 0 32))
        (fun s => "5K" ++ s) (fun s => "STM" ++ s) sample_get_accounts
        create true mail encode transfer WDone.

(** The same world where the write of the data file throws [w]. *)
Definition with_ledger_write (e : env) (w : wres) : env :=
  mkEnv (now e) (random_bytes e) (from_seed e) (public_of e) (get_accounts e)
        (create_broadcast e) (email_configured e) (email_transport e) (memo_encode e)
        (transfer_broadcast e) w.

(** An encoder that leaves the text in clear, and one that does not. *)
Definition clear_encode (_ _ msg : string) : outcome := OOk msg.
Definition opaque_encode (_ _ _ : string) : outcome := OOk "#3Xk9pQ2vE7".

Definition sample_config : config :=
  mkConfig "faucet" "5Kfaucetactive" (Some "5Kfaucetmemo").

Definition no_memo_key_config : config :=
  mkConfig "faucet" "5Kfaucetactive" None.

Definition sample_state : state := mkState sample_users (PParsed (Some [])).

Definition both_request : request := mkRequest "alice" "newuser3" "both".

End Pipeline.

(* ================================================================== *)
(** * Block pump: streamBlocks (blockchain-monitor.js, lines 111-181) *)
(* ================================================================== *)

Module Pump.
Local Open Scope Z_scope.

Record pstate : Type := mkP {
  isRunning : bool;
  lastProcessedBlock : Z;
  lastSavedBlock : option Z;        (* this._lastSavedBlock *)
  persistedBlock : option Z         (* content of last_block.json *)
}.

(** How [processBlock] ends: normally, or by throwing (it throws only
    when the block's transaction list is malformed; every error inside
    a custom_json operation is caught by [processCustomJson]). *)
Inductive proc_outcome : Type := ProcDone | ProcThrew.

(** What [await this.client.database.getBlock(nextBlock)] does. *)
Inductive fetch : Type :=
| FBlock (p : proc_outcome)       (* a block, then processBlock ends so *)
| FNone                           (* no block produced at that height yet *)
| FErr.                           (* the RPC call throws *)

Inductive action : Type :=
| AFetch (h : Z)
| AProcess (h : Z)
| ASleep (ms : Z)
| ASave (h : Z).

(** [saveLastBlock(force = false)] (lines 111-123). *)
Definition saveLastBlock (st : pstate) : pstate * list action :=
  let b := lastProcessedBlock st in
  if Z.leb b 0 then (st, [])
  else if (match lastSavedBlock st with Some s => Z.eqb s b | None => false end)
  then (st, [])
  else (mkP (isRunning st) b (Some b) (Some b), [ASave b]).

(** One pass of the [while (this.isRunning)] body (lines 160-179);
    [blockSaveInterval] is [parseInt(BLOCK_SAVE_INTERVAL) || 20]. *)
Definition iteration (blockSaveInterval : Z) (st : pstate) (f : fetch)
    : pstate * list action :=
  let nextBlock := lastProcessedBlock st + 1 in
  match f with
  | FNone => (st, [AFetch nextBlock; ASleep 3000])
  | FErr => (st, [AFetch nextBlock; ASleep 5000])
  | FBlock ProcThrew => (st, [AFetch nextBlock; AProcess nextBlock; ASleep 5000])
  | FBlock ProcDone =>
      let st1 := mkP (isRunning st) nextBlock (lastSavedBlock st) (persistedBlock st) in
      if Z.eqb (Z.rem nextBlock blockSaveInterval) 0
      then let (st2, a) := saveLastBlock st1 in
           (st2, List.app [AFetch nextBlock; AProcess nextBlock] a)
      else (st1, [AFetch nextBlock; AProcess nextBlock])
  end.

(** [streamBlocks()]: the loop, driven by the sequence of fetch
    outcomes the node produces. *)
Fixpoint streamBlocks (blockSaveInterval : Z) (st : pstate) (fs : list fetch)
    : pstate * list action :=
  match fs with
  | [] => (st, [])
  | f :: rest =>
      if isRunning st then
        let (st1, a) := iteration blockSaveInterval st f in
        let (st2, b) := streamBlocks blockSaveInterval st1 rest in
        (st2, List.app a b)
      else (st, [])
  end.

(** The heights requested from the node, in order. *)
Fixpoint fetched (acts : list action) : list Z :=
  match acts with
  | [] => []
  | AFetch h :: rest => h :: fetched rest
  | _ :: rest => fetched rest
  end.

(** Whether an outcome is a fully processed block. *)
Definition completes (f : fetch) : bool :=
  match f with FBlock ProcDone => true | _ => false end.

(** The heights a cursor starting at [h] requests: the same height
    again after every miss, the next one after a processed block. *)
Fixpoint expected_heights (h : Z) (fs : list fetch) : list Z :=
  match fs with
  | [] => []
  | f :: rest => (h + 1) :: expected_heights (if completes f then h + 1 else h) rest
  end.

(** [saveLastBlock(force)] with the flag explicit (lines 111-123);
    [saveLastBlock] above is the call without argument. *)
Definition saveLastBlockF (force : bool) (st : pstate) : pstate * list action :=
  let b := lastProcessedBlock st in
  if Z.leb b 0 then (st, [])
  else if negb force && (match lastSavedBlock st with Some s => Z.eqb s b | None => false end)
  then (st, [])
  else (mkP (isRunning st) b (Some b) (Some b), [ASave b]).

(** [stop()] (lines 724-729): a forced save, then the flag is cleared. *)
Definition stop (st : pstate) : pstate * list action :=
  let (st1, a) := saveLastBlockF true st in
  (mkP false (lastProcessedBlock st1) (lastSavedBlock st1) (persistedBlock st1), a).

(** The document [saveLastBlock] writes for [ASave b], as [JSON.parse]
    reads it back. *)
Definition last_block_payload (b : Z) (savedAt : string) : Js.jsval :=
  Js.JObj [("lastProcessedBlock", Js.JNum b); ("savedAt", Js.JStr savedAt)].

(** [last_block.json] as [loadLastBlock] finds it. *)
Inductive lbfile : Type :=
| LBMissing                      (* existsSync is false *)
| LBUnparsable                   (* readFileSync or JSON.parse throws *)
| LBParsed (v : Js.jsval).

(** [loadLastBlock()] (lines 97-109): the cursor [cur] is replaced when
    [data && typeof data.lastProcessedBlock === 'number']; every error
    is caught and leaves it. *)
Definition loadLastBlock (f : lbfile) (cur : Z) : Z :=
  match f with
  | LBParsed v =>
      if Js.truthy v then
        match Js.get v "lastProcessedBlock" with
        | Some (Js.JNum n) => n
        | _ => cur
        end
      else cur
  | _ => cur
  end.

(** The cursor the constructor leaves (lines 23, 42-52): it starts at
    0, [loadLastBlock] runs, and while it is still 0 the fallback
    [envBlock = parseInt(process.env.LAST_PROCESSED_BLOCK) || 0] is
    used when positive. *)
Definition initialCursor (f : lbfile) (envBlock : Z) : Z :=
  let c := loadLastBlock f 0 in
  if Z.eqb c 0 then (if Z.ltb 0 envBlock then envBlock else 0) else c.

(** [start()] (lines 128-151) followed by the loop: [head] is
    [getDynamicGlobalProperties().head_block_number], [None] when that
    call throws (the catch clears [isRunning]). *)
Definition start (blockSaveInterval : Z) (st : pstate) (head : option Z)
    (fs : list fetch) : pstate * list action :=
  if isRunning st then (st, [])
  else if Z.eqb (lastProcessedBlock st) 0 then
    match head with
    | None => (st, [])
    | Some h => streamBlocks blockSaveInterval
                  (mkP true (h - 1) (lastSavedBlock st) (persistedBlock st)) fs
    end
  else streamBlocks blockSaveInterval
         (mkP true (lastProcessedBlock st) (lastSavedBlock st) (persistedBlock st)) fs.

(** The heights saved by a run. *)
Fixpoint saved (acts : list action) : list Z :=
  match acts with
  | [] => []
  | ASave h :: rest => h :: saved rest
  | _ :: rest => saved rest
  end.

(** The number of fully processed blocks in a run of outcomes. *)
Definition count_completed (fs : list fetch) : Z :=
  Z.of_nat (List.length (List.filter completes fs)).

End Pump.

(* ================================================================== *)
(** * File write protocols: savePending vs. saveLastBlock             *)
(* ================================================================== *)

Module WriteProtocol.
Import Pending.

(** Byte-level file system: path to content. *)
Abbreviation fsys := (gmap string string).

Inductive fs_op : Type :=
| WriteFile (p : string) (content : string)   (* fs.writeFileSync *)
| RenameFile (src dst : string).              (* fs.renameSync *)

Definition exec_op (fs : fsys) (o : fs_op) : fsys :=
  match o with
  | WriteFile p c => <[p := c]> fs
  | RenameFile a b =>
      match fs !! a with
      | Some c => <[b := c]> (delete a fs)
      | None => fs
      end
  end.

Definition exec (fs : fsys) (ops : list fs_op) : fsys := fold_left exec_op ops fs.

(** A crash after the first [i] operations completed, during
    operation [i]: [writeFileSync] truncates its target and has put
    only the first [n] bytes down; a rename is atomic. *)
Definition crash_at (fs : fsys) (ops : list fs_op) (i n : nat) : fsys :=
  let fs1 := exec fs (firstn i ops) in
  match nth_error ops i with
  | Some (WriteFile p c) => <[p := substring 0 n c]> fs1
  | _ => fs1
  end.

Definition crash_state (fs : fsys) (ops : list fs_op) (fs' : fsys) : Prop :=
  exists i n, fs' = crash_at fs ops i n.

(** JSON.stringify string escaping. *)
Definition hex_digit (n : nat) : ascii :=
  if Nat.ltb n 10 then ascii_of_nat (48 + n) else ascii_of_nat (87 + n).

Fixpoint json_escape (s : string) : string :=
  match s with
  | EmptyString => EmptyString
  | String c rest =>
      let n := nat_of_ascii c in
      let r := json_escape rest in
      if Nat.eqb n 34 then String "\" (String "034" r)
      else if Nat.eqb n 92 then String "\" (String "\" r)
      else if Nat.eqb n 10 then String "\" (String "n" r)
      else if Nat.eqb n 13 then String "\" (String "r" r)
      else if Nat.eqb n 9 then String "\" (String "t" r)
      else if Nat.eqb n 8 then String "\" (String "b" r)
      else if Nat.eqb n 12 then String "\" (String "f" r)
      else if Nat.ltb n 32 then
        "\u00" ++ String (hex_digit (Nat.div n 16)) (String (hex_digit (Nat.modulo n 16)) r)
      else String c r
  end.

Definition nl : string := String "010" EmptyString.
Definition quoted (s : string) : string := String "034" (json_escape s ++ String "034" EmptyString).

Definition field (ind k v : string) (last : bool) : string :=
  ind ++ quoted k ++ ": " ++ quoted v ++ (if last then "" else ",") ++ nl.

Definition stringify_record (r : precord) : string :=
  let ind := "      " in
  "    {" ++ nl ++
  field ind "username" (username r) false ++
  field ind "created_at" (p_created_at r) false ++
  field ind "requester" (requester r) false ++
  field ind "masterPassword" (masterPassword r) false ++
  field ind "ownerKey" (ownerKey r) false ++
  field ind "activeKey" (activeKey r) false ++
  field ind "postingKey" (postingKey r) false ++
  field ind "memoKey" (memoKey r) false ++
  field ind "transactionId" (transactionId r) true ++
  "    }".

Fixpoint stringify_records (l : list precord) : string :=
  match l with
  | [] => ""
  | [r] => stringify_record r ++ nl
  | r :: rest => stringify_record r ++ "," ++ nl ++ stringify_records rest
  end.

(** [JSON.stringify({ pending: list }, null, 2)]. *)
Definition stringify_pending (l : list precord) : string :=
  match l with
  | [] => "{" ++ nl ++ "  " ++ quoted "pending" ++ ": []" ++ nl ++ "}"
  | _ => "{" ++ nl ++ "  " ++ quoted "pending" ++ ": [" ++ nl ++
         stringify_records l ++ "  ]" ++ nl ++ "}"
  end.

(** [savePending(list)] (lines 78-84): one direct write of the target. *)
Definition savePending_ops (recoveryFile : string) (l : list precord) : list fs_op :=
  [WriteFile recoveryFile (stringify_pending l)].

(** [saveLastBlock] (lines 115-118): write [<file>.tmp], rename it over
    the target. *)
Definition saveLastBlock_ops (lastBlockFile payload : string) : list fs_op :=
  [WriteFile (lastBlockFile ++ ".tmp") payload; RenameFile (lastBlockFile ++ ".tmp") lastBlockFile].

(** The protocol never leaves [target] holding anything but its old
    content or the new content, whatever the crash point. *)
Definition crash_safe_for (target : string) (fs : fsys) (ops : list fs_op) : Prop :=
  forall fs', crash_state fs ops fs' ->
    fs' !! target = fs !! target \/ fs' !! target = exec fs ops !! target.

End WriteProtocol.

(** Helpers and concrete envelopes for the statements about
    [validateRequest]. *)

Module JsFacts.
Import Js.

(** [v.k] read as a value, [undefined] when the read would throw. *)
Definition field (v : jsval) (k : string) : jsval :=
  match get v k with Some w => w | None => JUndef end.

(** A non-empty string value. *)
Definition nonempty_str (v : jsval) : Prop :=
  match v with JStr s => s <> "" | _ => False end.

(** An envelope whose [requested_username] is a number. *)
Definition numeric_username_request : jsval :=
  JObj [("app", JStr "hive_account_faucet"); ("version", JStr "1.0.0");
        ("action", JStr "create_account_request");
        ("data", JObj [("requested_username", JNum 5);
                       ("delivery_method", JStr "email")])].

(** A well-formed envelope. *)
Definition good_request : jsval :=
  JObj [("app", JStr "hive_account_faucet"); ("version", JStr "1.0.0");
        ("action", JStr "create_account_request");
        ("data", JObj [("requested_username", JStr "newuser1");
                       ("delivery_method", JStr "email")])].

End JsFacts.

(* ================================================================== *)
(** * Theorems                                                        *)
(* ================================================================== *)

(** ** Request validation *)

Module ValidateProofs.
Import Js JsFacts.

Lemma get_truthy (v : jsval) (k : string) :
  truthy v = true -> get v k = Some (field v k).
Proof. unfold field; destruct v; simpl; congruence. Qed.

Lemma get_not_null (v : jsval) (k : string) :
  v <> JNull -> v <> JUndef -> get v k = Some (field v k).
Proof. unfold field; destruct v; simpl; congruence. Qed.


(** C9 (as stated, refuted): [validateRequest] answers a truthy value
    for an envelope whose [requested_username] is a number, so a
    mistyped field does not make it fail, and on a well-formed
    envelope it returns the [delivery_method] string, not [true]. *)
Lemma validateRequest_mistyped_accepted :
  validateRequest numeric_username_request = Some (JStr "email") /\
  truthy (JStr "email") = true /\
  ~ nonempty_str (field (field numeric_username_request "data") "requested_username") /\
  validateRequest good_request <> Some (JBool true).
Proof.
  split; [reflexivity |]. split; [reflexivity |]. split.
  - simpl. tauto.
  - vm_compute. congruence.
Qed.

(** C9 (amended): for every parsed envelope other than [null] (on
    which the property read throws), [validateRequest] returns a value
    that is truthy exactly when [app], [version] and [action] are the
    three fixed strings and [data], [data.requested_username] and
    [data.delivery_method] are all truthy, whatever their type; a
    truthy result is the [delivery_method] value itself. *)
Theorem validateRequest_truthy_iff :
  validateRequest JNull = None /\
  forall d : jsval, d <> JNull -> d <> JUndef ->
  exists v, validateRequest d = Some v /\
    (truthy v = true <->
       (strict_eq_str (field d "app") "hive_account_faucet" = true /\
        strict_eq_str (field d "version") "1.0.0" = true /\
        strict_eq_str (field d "action") "create_account_request" = true /\
        truthy (field d "data") = true /\
        truthy (field (field d "data") "requested_username") = true /\
        truthy (field (field d "data") "delivery_method") = true)) /\
    (truthy v = true -> v = field (field d "data") "delivery_method").
Proof.
  split; [reflexivity |].
  intros d Hn Hu.
  unfold validateRequest, js_and.
  rewrite !(get_not_null d _ Hn Hu).
  destruct (strict_eq_str (field d "app") "hive_account_faucet") eqn:Ha;
    simpl; [| eexists; split; [reflexivity | split; [split; [discriminate | intuition congruence] | discriminate]]].
  destruct (strict_eq_str (field d "version") "1.0.0") eqn:Hv;
    simpl; [| eexists; split; [reflexivity | split; [split; [discriminate | intuition congruence] | discriminate]]].
  destruct (strict_eq_str (field d "action") "create_account_request") eqn:Hc;
    simpl; [| eexists; split; [reflexivity | split; [split; [discriminate | intuition congruence] | discriminate]]].
  destruct (truthy (field d "data")) eqn:Hd;
    [| eexists; split; [reflexivity | split; [split; [intros H; rewrite Hd in H; discriminate | intuition congruence] | intros H; rewrite Hd in H; discriminate]]].
  rewrite !(get_truthy _ _ Hd).
  destruct (truthy (field (field d "data") "requested_username")) eqn:Hr;
    [| eexists; split; [reflexivity | split; [split; [intros H; rewrite Hr in H; discriminate | intuition congruence] | intros H; rewrite Hr in H; discriminate]]].
  eexists; split; [reflexivity |]. split; [| reflexivity].
  split; [intros H; tauto | tauto].
Qed.

(** Witness: the theorem at the well-formed envelope. *)
Lemma validateRequest_truthy_iff_witness :
  good_request <> JNull /\ good_request <> JUndef /\
  exists v, validateRequest good_request = Some v /\ truthy v = true.
Proof.
  split; [discriminate |]. split; [discriminate |].
  destruct validateRequest_truthy_iff as [_ H].
  destruct (H good_request) as [v [Hv [Hiff _]]]; [discriminate | discriminate |].
  exists v. split; [exact Hv |]. apply Hiff. vm_compute. tauto.
Defined.

End ValidateProofs.

(** ** Pending-credentials store *)

Module PendingProofs.
Import Pending.

(** C10: when the pending file is missing, unreadable or not valid
    JSON, [loadPending] returns the empty list instead of throwing,
    and the next [addPending] rewrites the file with a list holding
    only the new record. *)
Theorem loadPending_corrupt_resets (f : pfile) (r : precord) :
  (f = PMissing \/ f = PUnreadable \/ exists raw, f = PMalformed raw) ->
  loadPending f = [] /\ addPending f r = PParsed (Some [r]) /\
  loadPending (addPending f r) = [r].
Proof.
  intros [-> | [-> | [raw ->]]]; repeat split.
Qed.

(** Witness: a truncated file. *)
Lemma loadPending_corrupt_resets_witness :
  loadPending (PMalformed "{") = [] /\
  addPending (PMalformed "{") sample_record = PParsed (Some [sample_record]) /\
  loadPending (addPending (PMalformed "{") sample_record) = [sample_record].
Proof.
  apply (loadPending_corrupt_resets (PMalformed "{") sample_record).
  right; right; exists "{"; reflexivity.
Defined.

End PendingProofs.

(** ** Double arithmetic *)

Module NumFacts.
Import JsNum.
Local Open Scope Z_scope.

Lemma round_exact (z : Z) : Z.abs z <= 2 ^ 53 -> round z = Fin z.
Proof.
  intros H. unfold round, rnd_mag.
  destruct (Z.leb_spec (Z.abs z) (2 ^ 53)) as [_ | C]; [| lia].
  destruct (Z.leb_spec (2 ^ 1024) (Z.abs z)) as [C | _]; [lia |].
  destruct (Z.ltb_spec z 0); f_equal; lia.
Qed.

Lemma to_file_exact (z : Z) : Z.abs z <= 2 ^ 53 -> to_file (round z) = FNum z.
Proof. intros H. rewrite round_exact by exact H. reflexivity. Qed.

Lemma rnd_mag_nonneg (n : Z) : 0 <= n -> 0 <= rnd_mag n.
Proof.
  intros Hn. unfold rnd_mag. destruct (n <=? 2 ^ 53); [exact Hn |].
  assert (0 <= 2 ^ (Z.log2 n - 52)) by (apply Z.pow_nonneg; lia).
  assert (0 <= n / 2 ^ (Z.log2 n - 52)) by (apply Z_div_nonneg_nonneg; lia).
  destruct (_ || _); apply Z.mul_nonneg_nonneg; lia.
Qed.

(** Rounding keeps a non-negative value non-negative, as a number or
    as the [null] an overflow is written as. *)
Lemma to_file_round_nonneg (z : Z) : 0 <= z -> 0 <= fz (to_file (round z)).
Proof.
  intros Hz. unfold round.
  destruct (2 ^ 1024 <=? _); [destruct (z <? 0); simpl; lia |].
  destruct (Z.ltb_spec z 0); [lia |]. simpl. apply rnd_mag_nonneg. lia.
Qed.

Lemma fz_of_file (x : jnum) : of_file x = Fin (fz x).
Proof. reflexivity. Qed.

End NumFacts.

(** ** Quota ledger *)

Module QuotaProofs.
Import JsNum Quota NumFacts.
Local Open Scope Z_scope.

Lemma used_le_same (f f' : ufile) : users_of f' = users_of f -> used_le f f'.
Proof. intros E k u Hk. exists u. rewrite E. split; [exact Hk | lia]. Qed.

Lemma used_le_insert (f f' : ufile) (k : string) (u' : user) :
  users_of f' = <[k := u']> (users_of f) ->
  (forall u, users_of f !! k = Some u ->
     0 <= fz (tokens_used u) < 2 ^ 53 -> fz (tokens_used u) <= fz (tokens_used u')) ->
  used_le f f'.
Proof.
  intros E Hk j u Hj. rewrite E. destruct (decide (k = j)) as [<- | Hne].
  - exists u'. split; [apply lookup_insert_eq | exact (Hk u Hj)].
  - exists u. split; [rewrite lookup_insert_ne by exact Hne; exact Hj | lia].
Qed.

Lemma nonneg_same (f f' : ufile) : users_of f' = users_of f -> nonneg f -> nonneg f'.
Proof. intros E Hn k u Hk. rewrite E in Hk. exact (Hn k u Hk). Qed.

Lemma nonneg_none : nonneg None.
Proof. intros k u Hk. simpl in Hk. rewrite lookup_empty in Hk. discriminate. Qed.

Lemma nonneg_insert (f f' : ufile) (k : string) (u' : user) :
  users_of f' = <[k := u']> (users_of f) -> 0 <= fz (tokens_remaining u') ->
  nonneg f -> nonneg f'.
Proof.
  intros E Hu Hn j u Hj. rewrite E in Hj.
  apply lookup_insert_Some in Hj as [[_ <-] | [_ Hj]]; [exact Hu | exact (Hn j u Hj)].
Qed.

(** A mutation leaves the file as it was, makes it unreadable (a write
    torn midway), or writes it with the records it had, one of them
    possibly replaced. *)
Lemma run_mutation_shape (now : string) (w : wres) (f : ufile) (m : mutation) :
  run_mutation now w f m = f \/
  (w = WTorn /\ run_mutation now w f m = None) \/
  (w = WDone /\ (users_of (run_mutation now w f m) = users_of f \/
                 exists u', users_of (run_mutation now w f m) = <[target m := u']> (users_of f))).
Proof.
  destruct f as [d |]; [| destruct m; left; reflexivity].
  destruct m as [un | un t ml nt | un a | un n]; simpl;
    unfold useToken, addUser, giveTokens, setTokens, lookup_entry; simpl;
    (destruct (authorized_users d !! un) as [v |]; [| destruct (inherited_name un)]);
    try destruct (fz (tokens_remaining _) <=? 0); try (left; reflexivity);
    destruct w; simpl; auto.
  all: right; right; split; [reflexivity |]; first [left; reflexivity | right; eexists; reflexivity].
Qed.

(** C7 (refuted): the balance of a record is not kept once its counts
    leave the integers doubles represent exactly: topping up a
    balanced record of 6 allocated, 3 used and 3 remaining by 2^53
    stores 2^53 + 6 allocated and 2^53 + 4 remaining, because
    [3 + 2^53] rounds to the even neighbour [2^53 + 4]. *)
Theorem giveTokens_breaks_balance (now : string) (d : udata) (u : string) (usr : user) :
  authorized_users d !! u = Some usr ->
  tokens_allocated usr = FNum 6 -> tokens_used usr = FNum 3 ->
  tokens_remaining usr = FNum 3 ->
  fz (tokens_used usr) + fz (tokens_remaining usr) = fz (tokens_allocated usr) /\
  exists usr', users_of (fst (giveTokens now WDone (Some d) u (Fin (2 ^ 53)))) !! u = Some usr' /\
    tokens_allocated usr' = FNum (2 ^ 53 + 6) /\ tokens_used usr' = FNum 3 /\
    tokens_remaining usr' = FNum (2 ^ 53 + 4) /\
    fz (tokens_used usr') + fz (tokens_remaining usr') <> fz (tokens_allocated usr').
Proof.
  intros Hu Ha Hs Hr. split; [rewrite Ha, Hs, Hr; reflexivity |].
  unfold giveTokens, lookup_entry. simpl. rewrite Hu. simpl.
  eexists. split; [apply lookup_insert_eq |]. cbn [tokens_allocated tokens_used tokens_remaining].
  rewrite Ha, Hs, Hr. vm_compute. repeat split; discriminate.
Qed.

Lemma giveTokens_breaks_balance_witness :
  exists usr', users_of (fst (giveTokens "t" WDone (Some carol_data) "carol" (Fin (2 ^ 53))))
                 !! "carol" = Some usr' /\
    fz (tokens_used usr') + fz (tokens_remaining usr') <> fz (tokens_allocated usr').
Proof.
  destruct (giveTokens_breaks_balance "t" carol_data "carol" carol ltac:(vm_compute; reflexivity) eq_refl eq_refl eq_refl)
    as [_ [usr' [H1 [_ [_ [_ H2]]]]]].
  exists usr'. split; [exact H1 | exact H2].
Defined.

(** C3 (as stated, refuted): [setTokens] below the tokens already used
    drives [tokens_remaining] negative: alice (5 allocated, 3 used,
    2 remaining) set to 1 token ends with -2 remaining. *)
Lemma setTokens_negative_remaining :
  nonneg sample_users /\
  exists u', users_of (run_mutation "2025-01-03T00:00:00.000Z" WDone sample_users
                         (MSetTokens "alice" (Fin 1))) !! "alice" = Some u' /\
             tokens_remaining u' = FNum (-2).
Proof.
  split.
  - intros k u Hk. simpl in Hk. apply lookup_insert_Some in Hk as [[_ <-] | [_ Hk]].
    + simpl. lia.
    + rewrite lookup_empty in Hk. discriminate.
  - eexists. split; [vm_compute; reflexivity | reflexivity].
Qed.

(** C3 (amended): while [tokens_used] lies in [[0, 2^53)] no mutation
    lowers it, and no mutation removes a record unless the write of
    the data file is torn, which leaves the file unreadable.
    [tokens_remaining >= 0] is kept by [useToken], by [addUser] with a
    non-negative allocation, by [giveTokens] with an amount of at
    least [-tokens_remaining] and by [setTokens] with a total of at
    least [tokens_used]; a non-negative total below [tokens_used], or
    an amount in [[-2^53, -tokens_remaining)], leaves the named record
    with a negative [tokens_remaining] once written. *)
Theorem mutation_remaining_nonneg (now : string) (w : wres) (f : ufile) (m : mutation) :
  (w <> WTorn -> used_le f (run_mutation now w f m)) /\
  (run_mutation now WTorn f m = f \/ run_mutation now WTorn f m = None) /\
  (nonneg f -> mutation_guard f m -> nonneg (run_mutation now w f m)) /\
  (mutation_overdraws f m ->
   exists u', users_of (run_mutation now WDone f m) !! target m = Some u' /\
              fz (tokens_remaining u') < 0).
Proof.
  split; [| split; [| split]].
  - intros Hw. destruct f as [d |]; [| destruct m; apply used_le_same; reflexivity].
    destruct m as [un | un t ml nt | un a | un n]; simpl;
      unfold useToken, addUser, giveTokens, setTokens, lookup_entry; simpl;
      (destruct (authorized_users d !! un) as [v |] eqn:Hv; [| destruct (inherited_name un)]);
      try (apply used_le_same; reflexivity).
    + destruct (fz (tokens_remaining v) <=? 0); [apply used_le_same; reflexivity |].
      destruct w; [| apply used_le_same; reflexivity | congruence].
      eapply used_le_insert; [reflexivity |]. simpl. intros u Hu Hr.
      rewrite Hv in Hu. injection Hu as <-. rewrite to_file_exact by lia. simpl. lia.
    + destruct w; [| apply used_le_same; reflexivity | congruence].
      apply used_le_same; reflexivity.
    + destruct w; [| apply used_le_same; reflexivity | congruence].
      eapply used_le_insert; [reflexivity |]. simpl. intros u Hu _. rewrite Hv in Hu. discriminate.
    + destruct w; [| apply used_le_same; reflexivity | congruence].
      eapply used_le_insert; [reflexivity |]. simpl. intros u Hu _.
      rewrite Hv in Hu. injection Hu as <-. lia.
    + destruct w; [| apply used_le_same; reflexivity | congruence].
      apply used_le_same; reflexivity.
    + destruct w; [| apply used_le_same; reflexivity | congruence].
      eapply used_le_insert; [reflexivity |]. simpl. intros u Hu _.
      rewrite Hv in Hu. injection Hu as <-. lia.
    + destruct w; [| apply used_le_same; reflexivity | congruence].
      apply used_le_same; reflexivity.
  - destruct (run_mutation_shape now WTorn f m) as [H | [[_ H] | [H _]]];
      [left | right | discriminate]; exact H.
  - intros Hn Hg. destruct f as [d |]; [| destruct m; exact Hn].
    destruct m as [un | un t ml nt | un a | un n]; simpl in Hg |- *;
      unfold useToken, addUser, giveTokens, setTokens, lookup_entry; simpl;
      (destruct (authorized_users d !! un) as [v |] eqn:Hv; [| destruct (inherited_name un)]);
      try (destruct (fz (tokens_remaining v) <=? 0) eqn:Hle);
      destruct w; cbn [saveData fst]; try exact nonneg_none; try exact Hn.
    all: eapply (nonneg_insert (Some d)); [reflexivity | | exact Hn]; simpl.
    all: try (apply Z.leb_gt in Hle; apply to_file_round_nonneg; lia).
    all: try specialize (Hg v Hv); try specialize (Hg v eq_refl); unfold of_file in *.
    all: try (match goal with
         | |- context [to_file ?t] => is_var t; destruct t
         | |- context [match ?a with Fin _ => _ | _ => _ end] => destruct a
         | |- context [sub ?n _] => destruct n
         end; simpl in Hg |- *).
    all: try discriminate.
    all: try apply Z.leb_le in Hg.
    all: first [lia | apply to_file_round_nonneg; lia].
  - destruct m as [un | un t ml nt | un [k | | |] | un [n | | |]]; simpl; try tauto.
    + intros [usr [Hu [Hr Hk]]]. destruct f as [d |]; [| simpl in Hu; rewrite lookup_empty in Hu; discriminate].
      simpl in Hu. unfold giveTokens, lookup_entry. simpl. rewrite Hu. simpl.
      eexists. split; [apply lookup_insert_eq |]. simpl.
      rewrite to_file_exact by lia. simpl. lia.
    + intros [usr [Hu [Hn Hs]]]. destruct f as [d |]; [| simpl in Hu; rewrite lookup_empty in Hu; discriminate].
      simpl in Hu. unfold setTokens, lookup_entry. simpl. rewrite Hu. simpl.
      eexists. split; [apply lookup_insert_eq |]. simpl.
      rewrite to_file_exact by lia. simpl. lia.
Qed.

(** Witness: alice spends a token, and alice set to one token. *)
Lemma mutation_remaining_nonneg_witness :
  nonneg (run_mutation "2025-01-03T00:00:00.000Z" WDone sample_users (MUseToken "alice")) /\
  exists u', users_of (run_mutation "2025-01-03T00:00:00.000Z" WDone sample_users
                         (MSetTokens "alice" (Fin 1))) !! "alice" = Some u' /\
             fz (tokens_remaining u') < 0.
Proof.
  assert (Hn : nonneg sample_users).
  { intros k u Hk. simpl in Hk. apply lookup_insert_Some in Hk as [[_ <-] | [_ Hk]].
    + simpl. lia.
    + rewrite lookup_empty in Hk. discriminate. }
  split.
  - exact (proj1 (proj2 (proj2 (mutation_remaining_nonneg "2025-01-03T00:00:00.000Z" WDone
                  sample_users (MUseToken "alice")))) Hn I).
  - refine (proj2 (proj2 (proj2 (mutation_remaining_nonneg "2025-01-03T00:00:00.000Z" WDone
                  sample_users (MSetTokens "alice" (Fin 1))))) _).
    exists alice. split; [vm_compute; reflexivity | simpl; lia].
Defined.

End QuotaProofs.

(** ** Request pipeline *)

Module PipelineProofs.
Import JsNum Quota Pending Pipeline.

(** A request whose provisioning succeeded and whose delivery failed
    leaves the pending store extended by its record and the data file
    of the quota ledger untouched. *)
Lemma processAccountRequest_undelivered (e : env) (cfg : config) (st : state)
    (req : request) (d : delivery) :
  delivery_of e cfg st req = Some d -> overall d = false ->
  let st' := fst (processAccountRequest e cfg st req) in
  st_users st' = st_users st /\
  exists r, loadPending (st_pending st') = List.app (loadPending (st_pending st)) [r] /\
    username r = req_username req /\ requester r = req_requester req /\
    masterPassword r = generateMasterPassword (random_bytes e).
Proof.
  intros Hd Ho. unfold delivery_of in Hd. unfold processAccountRequest.
  destruct (checkAuthorization (st_users st) (req_requester req)) as [rs | rm ru ra ui];
    [discriminate |].
  destruct (createHiveAccount e (req_username req) (creatingAccount cfg)) as [cr eff] eqn:Hc.
  simpl in Hd. destruct cr as [txid | msg]; [| discriminate].
  injection Hd as <-. rewrite Ho. simpl. split; [reflexivity |].
  eexists. split; [reflexivity | repeat split].
Qed.

(** C1: when provisioning succeeds and [overallSuccess] is false, the
    pending store afterwards still holds the record for the resource
    name (nothing was removed, the new record was appended) and the
    requester's token counts are as before ([useToken] was not run). *)
Theorem processAccountRequest_stranded_keeps_record (e : env) (cfg : config)
    (st : state) (req : request) (d : delivery) :
  delivery_of e cfg st req = Some d -> overall d = false ->
  let st' := fst (processAccountRequest e cfg st req) in
  holds (st_pending st') (req_username req) /\
  (forall r, In r (loadPending (st_pending st)) -> In r (loadPending (st_pending st'))) /\
  users_of (st_users st') = users_of (st_users st).
Proof.
  intros Hd Ho st'.
  destruct (processAccountRequest_undelivered e cfg st req d Hd Ho) as [Hu [r [Hl [Hn _]]]].
  fold st' in Hu, Hl. split; [| split].
  - exists r. rewrite Hl. split; [apply in_or_app; right; left; reflexivity | exact Hn].
  - intros r' Hr'. rewrite Hl. apply in_or_app. left. exact Hr'.
  - rewrite Hu. reflexivity.
Qed.

(** Witness: the scenario of newuser3, with the mail transport failing
    and no faucet memo key. *)
Lemma processAccountRequest_stranded_keeps_record_witness :
  let e := sample_env (OOk "tx-newuser3") (OErr "SMTP refused") (OOk "tr1") opaque_encode in
  exists d, delivery_of e no_memo_key_config sample_state both_request = Some d /\
  overall d = false /\
  holds (st_pending (fst (processAccountRequest e no_memo_key_config sample_state both_request)))
        "newuser3".
Proof.
  intros e.
  set (d := deliver e no_memo_key_config "both" alice "alice" "newuser3"
              (generateMasterPassword (random_bytes e))).
  exists d. split; [vm_compute; reflexivity |]. split; [vm_compute; reflexivity |].
  refine (proj1 (processAccountRequest_stranded_keeps_record e no_memo_key_config
                   sample_state both_request d _ _)); vm_compute; reflexivity.
Defined.

(** C4: when [createHiveAccount] fails, [processAccountRequest] leaves
    both files exactly as they were: no pending record, no token spent. *)
Theorem processAccountRequest_create_failure (e : env) (cfg : config)
    (st : state) (req : request) (msg : string) :
  fst (createHiveAccount e (req_username req) (creatingAccount cfg)) = inr msg ->
  fst (processAccountRequest e cfg st req) = st.
Proof.
  intros Hc. unfold processAccountRequest.
  destruct (checkAuthorization (st_users st) (req_requester req)); [reflexivity |].
  destruct (createHiveAccount e (req_username req) (creatingAccount cfg)) as [cr eff].
  simpl in Hc. subst cr. reflexivity.
Qed.

(** Witness: the broadcast of the creation is rejected. *)
Lemma processAccountRequest_create_failure_witness :
  let e := sample_env (OErr "missing required active authority") (OOk "m1") (OOk "tr1")
             opaque_encode in
  fst (processAccountRequest e sample_config sample_state both_request) = sample_state.
Proof.
  intros e.
  apply (processAccountRequest_create_failure e sample_config sample_state both_request
           "missing required active authority").
  vm_compute. reflexivity.
Defined.

(** C5: [sendAccountMemo] never succeeds with a payload that shows the
    username or the master password: when the encoded memo contains
    either, the result is a failure and nothing is broadcast; and any
    transfer it does broadcast carries a memo containing neither. *)
Theorem sendAccountMemo_blocks_leak (e : env) (cfg : config)
    (k rcpt u mp : string) :
  (forall (a : account) (rest : list account) (enc : string),
     get_accounts e rcpt = RpcOk (a :: rest) ->
     memo_encode e k (memo_key a) ("#" ++ memoMessage u mp) = OOk enc ->
     includes enc u || includes enc mp = true ->
     success (fst (sendAccountMemo e cfg k rcpt u mp)) = false /\
     snd (sendAccountMemo e cfg k rcpt u mp) = []) /\
  (success (fst (sendAccountMemo e cfg k rcpt u mp)) = true ->
   exists enc, snd (sendAccountMemo e cfg k rcpt u mp) =
                 [ETransfer (creatingAccount cfg) rcpt "0.001 HBD" enc] /\
               includes enc u = false /\ includes enc mp = false).
Proof.
  split.
  - intros a rest enc Ha He Hi. unfold sendAccountMemo. rewrite Ha, He, Hi. split; reflexivity.
  - unfold sendAccountMemo.
    destruct (get_accounts e rcpt) as [m | [| a rest]]; simpl; try discriminate.
    destruct (memo_encode e k (memo_key a) ("#" ++ memoMessage u mp)) as [m | enc];
      simpl; [discriminate |].
    destruct (includes enc u) eqn:Hu; simpl; [discriminate |].
    destruct (includes enc mp) eqn:Hm; simpl; [discriminate |].
    intros _. exists enc. split; [| split; assumption].
    destruct (transfer_broadcast e); reflexivity.
Qed.

(** Witness: an encoder that returns the message in clear is caught. *)
Lemma sendAccountMemo_blocks_leak_witness :
  let e := sample_env (OOk "tx1") (OOk "m1") (OOk "tr1") clear_encode in
  success (fst (sendAccountMemo e sample_config "5Kfaucetmemo" "alice" "newuser3" "P5abc")) = false /\
  snd (sendAccountMemo e sample_config "5Kfaucetmemo" "alice" "newuser3" "P5abc") = [].
Proof.
  intros e.
  apply (proj1 (sendAccountMemo_blocks_leak e sample_config "5Kfaucetmemo" "alice" "newuser3" "P5abc")
           (mkAccount "STM7alice" 0) [] ("#" ++ memoMessage "newuser3" "P5abc"));
    vm_compute; reflexivity.
Defined.

Lemma deliver_overall (e : env) (cfg : config) (m : string) (ui : user) (rq u mp : string) :
  overall (deliver e cfg m ui rq u mp) =
  overallSuccess m (emailResult (deliver e cfg m ui rq u mp))
                   (memoResult (deliver e cfg m ui rq u mp)).
Proof.
  unfold deliver.
  destruct (email_channel e m (requesterEmail ui)), (memo_channel e cfg m rq u mp).
  reflexivity.
Qed.

Lemma delivery_of_deliver (e : env) (cfg : config) (st : state) (req : request)
    (d : delivery) :
  delivery_of e cfg st req = Some d ->
  exists ui mp, d = deliver e cfg (req_method req) ui (req_requester req) (req_username req) mp.
Proof.
  unfold delivery_of.
  destruct (checkAuthorization (st_users st) (req_requester req)) as [| ? ? ? ui]; [discriminate |].
  destruct (fst (createHiveAccount e (req_username req) (creatingAccount cfg))); [| discriminate].
  intros H. injection H as <-. eexists _, _. reflexivity.
Qed.

(** C6: with [delivery_method] ["both"], [overallSuccess] is the
    conjunction of the two channel successes; with ["email"] or
    ["hive_memo"] it is that channel's success alone (the other
    channel is not attempted).  Hence a ["both"] request on which
    exactly one channel succeeds is not fulfilled and its pending
    record is still present afterwards. *)
Theorem overallSuccess_policy :
  (forall (e : env) (cfg : config) (m : string) (ui : user) (rq u mp : string),
     let d := deliver e cfg m ui rq u mp in
     (m = "both" -> overall d = success (emailResult d) && success (memoResult d)) /\
     (m = "email" -> overall d = success (emailResult d)) /\
     (m = "hive_memo" -> overall d = success (memoResult d))) /\
  (forall (e : env) (cfg : config) (st : state) (req : request) (d : delivery),
     req_method req = "both" ->
     delivery_of e cfg st req = Some d ->
     xorb (success (emailResult d)) (success (memoResult d)) = true ->
     overall d = false /\
     holds (st_pending (fst (processAccountRequest e cfg st req))) (req_username req)).
Proof.
  split.
  - intros e cfg m ui rq u mp. cbn zeta. rewrite !deliver_overall.
    split; [| split]; intros ->; unfold overallSuccess; simpl String.eqb; cbv iota.
    + reflexivity.
    + unfold deliver. destruct (email_channel e "email" (requesterEmail ui)) as [er eff1].
      simpl. apply orb_false_r.
    + unfold deliver. simpl. destruct (memo_channel e cfg "hive_memo" rq u mp). reflexivity.
  - intros e cfg st req d Hm Hd Hx.
    destruct (delivery_of_deliver e cfg st req d Hd) as [ui [mp Heq]].
    assert (Ho : overall d = false).
    { rewrite Heq, deliver_overall, <- Heq, Hm. simpl.
      unfold overallSuccess. simpl String.eqb. cbv iota.
      destruct (success (emailResult d)), (success (memoResult d)); simpl in *; congruence. }
    split; [exact Ho |].
    destruct (processAccountRequest_undelivered e cfg st req d Hd Ho) as [_ [r [Hl [Hn _]]]].
    exists r. rewrite Hl. split; [apply in_or_app; right; left; reflexivity | exact Hn].
Qed.

(** Witness: a ["both"] request where the mail goes out and the memo
    transfer is rejected; and the single-channel rule at ["email"]. *)
Lemma overallSuccess_policy_witness :
  let e := sample_env (OOk "tx-newuser3") (OOk "m1") (OErr "insufficient funds") opaque_encode in
  let d := deliver e sample_config "both" alice "alice" "newuser3"
             (generateMasterPassword (random_bytes e)) in
  delivery_of e sample_config sample_state both_request = Some d /\
  overall d = false /\
  holds (st_pending (fst (processAccountRequest e sample_config sample_state both_request)))
        "newuser3" /\
  overall (deliver e sample_config "email" alice "alice" "newuser3" "P5abc") =
  success (emailResult (deliver e sample_config "email" alice "alice" "newuser3" "P5abc")).
Proof.
  intros e d. split; [vm_compute; reflexivity |].
  assert (H := proj2 overallSuccess_policy e sample_config sample_state both_request d
                 eq_refl ltac:(vm_compute; reflexivity) ltac:(vm_compute; reflexivity)).
  split; [exact (proj1 H) |]. split; [exact (proj2 H) |].
  exact (proj1 (proj2 (proj1 overallSuccess_policy e sample_config "email" alice "alice"
                          "newuser3" "P5abc")) eq_refl).
Defined.

End PipelineProofs.

(** ** Block pump *)

Module PumpProofs.
Import Pump.
Local Open Scope Z_scope.
Local Open Scope list_scope.

Lemma saveLastBlock_keeps (st : pstate) :
  isRunning (fst (saveLastBlock st)) = isRunning st /\
  lastProcessedBlock (fst (saveLastBlock st)) = lastProcessedBlock st /\
  fetched (snd (saveLastBlock st)) = [].
Proof.
  unfold saveLastBlock.
  destruct (lastProcessedBlock st <=? 0); [repeat split |].
  destruct (match lastSavedBlock st with Some s => s =? lastProcessedBlock st | None => false end);
    repeat split.
Qed.

Lemma fetched_app (a b : list action) : fetched (a ++ b) = fetched a ++ fetched b.
Proof.
  induction a as [| x a IH]; [reflexivity |]. destruct x; simpl; rewrite ?IH; reflexivity.
Qed.

Lemma iteration_cursor (interval : Z) (st : pstate) (f : fetch) :
  isRunning (fst (iteration interval st f)) = isRunning st /\
  lastProcessedBlock (fst (iteration interval st f)) =
    (if completes f then lastProcessedBlock st + 1 else lastProcessedBlock st) /\
  fetched (snd (iteration interval st f)) = [lastProcessedBlock st + 1].
Proof.
  unfold iteration. destruct f as [[|] | |]; simpl; try (repeat split; reflexivity).
  destruct (Z.rem (lastProcessedBlock st + 1) interval =? 0); [| repeat split].
  set (st1 := mkP (isRunning st) (lastProcessedBlock st + 1) (lastSavedBlock st) (persistedBlock st)).
  destruct (saveLastBlock_keeps st1) as [H1 [H2 H3]].
  destruct (saveLastBlock st1) as [st2 a] eqn:Hs. simpl in *.
  rewrite H1, H2, H3. repeat split.
Qed.

(** C8: one pass of the loop that gets no block, whose fetch throws,
    or whose block processing throws, leaves [lastProcessedBlock] and
    the running flag unchanged; the cursor moves only on a fully
    processed block, and then by one.  Over any run of the loop, the
    heights requested are: the next height after a processed block,
    the same height again after every miss or error, one request per
    pass, so no miss or error ends the loop. *)
Theorem streamBlocks_retries_same_height (interval : Z) :
  (forall (st : pstate) (f : fetch),
     let st' := fst (iteration interval st f) in
     isRunning st' = isRunning st /\
     (completes f = false -> lastProcessedBlock st' = lastProcessedBlock st) /\
     (lastProcessedBlock st' <> lastProcessedBlock st ->
        f = FBlock ProcDone /\ lastProcessedBlock st' = lastProcessedBlock st + 1)) /\
  (forall (st : pstate) (fs : list fetch),
     isRunning st = true ->
     fetched (snd (streamBlocks interval st fs)) =
       expected_heights (lastProcessedBlock st) fs).
Proof.
  split.
  - intros st f st'. destruct (iteration_cursor interval st f) as [H1 [H2 _]].
    fold st' in H1, H2. split; [exact H1 |]. split.
    + intros Hc. rewrite H2, Hc. reflexivity.
    + intros Hne. destruct f as [[|] | |]; simpl in H2; try (rewrite H2 in Hne; congruence).
      split; [reflexivity | exact H2].
  - intros st fs. revert st. induction fs as [| f fs IH]; intros st Hr; [reflexivity |].
    simpl. rewrite Hr.
    destruct (iteration_cursor interval st f) as [H1 [H2 H3]].
    destruct (iteration interval st f) as [st1 a] eqn:Hi. simpl in H1, H2, H3.
    specialize (IH st1 ltac:(rewrite H1; exact Hr)).
    destruct (streamBlocks interval st1 fs) as [st2 b] eqn:Hs. simpl in IH |- *.
    rewrite fetched_app, H3, IH, H2. reflexivity.
Qed.

(** Witness: a miss, a processed block, a fetch error, then a block
    whose processing throws, from cursor 18. *)
Lemma streamBlocks_retries_same_height_witness :
  fetched (snd (streamBlocks 20 (mkP true 18 None None)
                 [FNone; FBlock ProcDone; FErr; FBlock ProcThrew; FBlock ProcDone])) =
  [19; 19; 20; 20; 20].
Proof.
  rewrite (proj2 (streamBlocks_retries_same_height 20) (mkP true 18 None None) _ eq_refl).
  reflexivity.
Defined.

End PumpProofs.

(** ** File write protocols *)

Module WriteProofs.
Import Pending WriteProtocol.

Lemma string_length_append (a b : string) :
  String.length (a ++ b) = String.length a + String.length b.
Proof. induction a as [| c a IH]; simpl; [reflexivity | rewrite IH; reflexivity]. Qed.

Lemma tmp_ne (p : string) : p ++ ".tmp" <> p.
Proof.
  intros H. apply (f_equal String.length) in H.
  rewrite string_length_append in H. simpl in H. lia.
Qed.

(** The sibling path [saveLastBlock] writes a temporary file and
    renames it: whatever the crash point, the target holds its old
    or its new content. *)
Lemma saveLastBlock_crash_safe (fs : fsys) (lastBlockFile payload : string) :
  crash_safe_for lastBlockFile fs (saveLastBlock_ops lastBlockFile payload).
Proof.
  intros fs' [i [n ->]]. unfold crash_at, saveLastBlock_ops.
  destruct i as [| [| i]]; simpl.
  - left. rewrite lookup_insert_ne; [reflexivity | apply tmp_ne].
  - left. rewrite lookup_insert_ne; [reflexivity | apply tmp_ne].
  - right. destruct i; reflexivity.
Qed.

(** C2 (the code writes the target directly): [savePending] issues
    one [writeFileSync] of the recovery file itself, with no temporary
    file and no rename, so a crash right after the write has truncated
    the file leaves it empty: neither the old nor the new content. *)
Theorem savePending_not_crash_safe (fs : fsys) (recoveryFile : string)
    (l : list precord) :
  fs !! recoveryFile <> Some "" ->
  savePending_ops recoveryFile l = [WriteFile recoveryFile (stringify_pending l)] /\
  ~ crash_safe_for recoveryFile fs (savePending_ops recoveryFile l).
Proof.
  intros Hold. split; [reflexivity |].
  intros Hsafe.
  destruct (Hsafe (crash_at fs (savePending_ops recoveryFile l) 0 0)) as [H | H];
    [exists 0, 0; reflexivity | |];
    unfold crash_at, savePending_ops in H; simpl in H; rewrite lookup_insert_eq in H.
  - apply Hold. rewrite <- H. destruct (stringify_pending l); reflexivity.
  - rewrite lookup_insert_eq in H. injection H as H.
    destruct l as [| r l]; discriminate H.
Qed.

(** Witness: a recovery file holding one record is rewritten. *)
Lemma savePending_not_crash_safe_witness :
  ~ crash_safe_for "data/pending_credentials.json"
      (<["data/pending_credentials.json" := stringify_pending [sample_record]]> ∅)
      (savePending_ops "data/pending_credentials.json" [sample_record; sample_record]).
Proof.
  apply (proj2 (savePending_not_crash_safe
                  (<["data/pending_credentials.json" := stringify_pending [sample_record]]> ∅)
                  "data/pending_credentials.json" [sample_record; sample_record]
                  ltac:(rewrite lookup_insert_eq; discriminate))).
Defined.

End WriteProofs.

(** ** Quota ledger: further properties *)

Module QuotaMoreProofs.
Import JsNum Quota NumFacts.
Local Open Scope Z_scope.

Lemma sum_with_insert (g : user -> Z) (m : gmap string user) (k : string) (v : user) :
  sum_with g (<[k := v]> m) =
  sum_with g m - (match m !! k with Some u => g u | None => 0 end) + g v.
Proof.
  unfold sum_with.
  destruct (m !! k) as [u |] eqn:Hk.
  - rewrite <- insert_delete_eq.
    rewrite (map_fold_delete_L _ _ k u m); [| intros; lia | exact Hk].
    rewrite map_fold_insert_L; [lia | intros; lia | apply lookup_delete_eq].
  - rewrite map_fold_insert_L; [lia | intros; lia | exact Hk].
Qed.

Lemma size_insert_Z (m : gmap string user) (k : string) (v : user) :
  Z.of_nat (size (<[k := v]> m)) =
  Z.of_nat (size m) + (match m !! k with Some _ => 0 | None => 1 end).
Proof. rewrite map_size_insert. destruct (m !! k); simpl; lia. Qed.

(** Rounds every sum the bounds show exact. *)
Ltac exact_arith := repeat (rewrite round_exact by lia; simpl).

Lemma sample_users_consistent : meta_consistent sample_users.
Proof. vm_compute. repeat split. Qed.

Lemma sample_users_within : counts_within (2 ^ 51) sample_users.
Proof.
  unfold sample_users, counts_within. split; [| vm_compute; repeat split; discriminate].
  intros k u Hk. cbn [users_of sample_users authorized_users] in Hk.
  apply lookup_insert_Some in Hk as [[_ <-] | [_ Hk]].
  - vm_compute. repeat split; discriminate.
  - rewrite lookup_empty in Hk. discriminate.
Qed.

(** X: a ledger mutation on a name that is not inherited from
    [Object.prototype], with every count and the amount at most 2^51
    in magnitude (so every sum is exact in doubles), keeps the
    metadata consistent with the records: [total_users] is the number
    of records, [total_tokens_allocated] and [total_tokens_used] the
    sums of the per-record fields; [setUserStatus] always does,
    whatever the outcome of the write. *)
Theorem mutation_keeps_metadata (now : string) (w : wres) (f : ufile) (m : mutation)
    (u : string) (b : bool) :
  meta_consistent f ->
  (inherited_name (target m) = false -> counts_within (2 ^ 51) f -> amount_within (2 ^ 51) m ->
   meta_consistent (run_mutation now w f m)) /\
  meta_consistent (fst (setUserStatus now w f u b)).
Proof.
  destruct f as [d |]; [| intros _; split; [intros; destruct m; exact I | exact I]].
  intros Hc. split.
  - intros Hi [Hb [Htu [Hta Htd]]] Ham. destruct Hc as [Hn [Ha Hu]].
    destruct m as [un | un t ml nt | un a | un n]; simpl in Hi, Ham |- *;
      unfold useToken, addUser, giveTokens, setTokens, lookup_entry; rewrite Hi; simpl;
      destruct (authorized_users d !! un) as [v |] eqn:Hv; simpl;
      try (split; [exact Hn | split; [exact Ha | exact Hu]]);
      try (specialize (Hb un v Hv)); try (match type of Ham with ex _ => destruct Ham as [z [-> Hz]] end);
      try (destruct (fz (tokens_remaining v) <=? 0);
           [simpl; split; [exact Hn | split; [exact Ha | exact Hu]] |]);
      destruct w; simpl; try exact I; try (split; [exact Hn | split; [exact Ha | exact Hu]]);
      rewrite size_insert_Z, !sum_with_insert, Hv; simpl; exact_arith; lia.
  - unfold setUserStatus, lookup_entry. simpl.
    destruct (authorized_users d !! u) as [v |] eqn:Hv; [| destruct (inherited_name u)];
      destruct w; simpl; try exact I; try exact Hc.
    destruct Hc as [Hn [Ha Hu]].
    rewrite size_insert_Z, !sum_with_insert, Hv. simpl. lia.
Qed.

(** Witness: alice's ledger after she spends a token. *)
Lemma mutation_keeps_metadata_witness :
  meta_consistent (run_mutation "2025-01-03T00:00:00.000Z" WDone sample_users (MUseToken "alice")).
Proof.
  exact (proj1 (mutation_keeps_metadata "2025-01-03T00:00:00.000Z" WDone sample_users
                  (MUseToken "alice") "alice" true sample_users_consistent)
           eq_refl sample_users_within I).
Defined.

(** X: [checkAuthorization] authorizes exactly the requesters that have
    a record, are active and have a positive balance, and reports that
    record's three counters. *)
Theorem checkAuthorization_iff (f : ufile) (u : string) (r us a : jnum) (ui : user) :
  checkAuthorization f u = AuthOk r us a ui <->
  users_of f !! u = Some ui /\ is_active ui = true /\ 0 < fz (tokens_remaining ui) /\
  r = tokens_remaining ui /\ us = tokens_used ui /\ a = tokens_allocated ui.
Proof.
  unfold checkAuthorization, loadData, lookup_entry. destruct f as [d |]; simpl.
  2:{ split; [discriminate | intros [H _]; rewrite lookup_empty in H; discriminate]. }
  destruct (authorized_users d !! u) as [v |] eqn:Hv.
  2:{ destruct (inherited_name u); (split; [discriminate | intros [H _]; discriminate]). }
  destruct (is_active v) eqn:Hact; simpl.
  2:{ split; [discriminate | intros [H [H' _]]; injection H as <-; congruence]. }
  destruct (Z.leb_spec (fz (tokens_remaining v)) 0) as [Hr | Hr].
  - split; [discriminate |]. intros [H [_ [H' _]]]. injection H as <-. lia.
  - split.
    + intros H. injection H as <- <- <- <-. repeat split; auto.
    + intros [H [_ [_ [-> [-> ->]]]]]. injection H as <-. reflexivity.
Qed.

(** X: [useToken] returns [saveData]'s result: it succeeds exactly
    when the write completes and the name has a record with a
    positive balance or is inherited from [Object.prototype]; when it
    fails the file is unchanged, unless a torn write left it
    unreadable.  On a record with [tokens_used] and [tokens_remaining]
    exact in doubles, that record gets one more used and one fewer
    remaining token and [last_used] stamped, and no other record
    changes; on an inherited name no record changes while
    [total_tokens_used] still grows by one. *)
Theorem useToken_spec (now : string) (w : wres) (f : ufile) (u : string) :
  (snd (useToken now w f u) = true <->
     w = WDone /\
     ((exists usr, users_of f !! u = Some usr /\ 0 < fz (tokens_remaining usr)) \/
      (exists d, f = Some d /\ authorized_users d !! u = None /\ inherited_name u = true))) /\
  (snd (useToken now w f u) = false ->
     fst (useToken now w f u) = f \/ (w = WTorn /\ fst (useToken now w f u) = None)) /\
  (forall usr, users_of f !! u = Some usr -> 0 < fz (tokens_remaining usr) ->
     Z.abs (fz (tokens_used usr)) < 2 ^ 53 -> fz (tokens_remaining usr) <= 2 ^ 53 ->
     users_of (fst (useToken now WDone f u)) !! u =
       Some (mkUser (tokens_allocated usr) (FNum (fz (tokens_used usr) + 1))
               (FNum (fz (tokens_remaining usr) - 1))
               (email usr) (created_at usr) (Some now) (is_active usr) (notes usr)) /\
     forall k, k <> u -> users_of (fst (useToken now WDone f u)) !! k = users_of f !! k) /\
  (forall d, f = Some d -> authorized_users d !! u = None -> inherited_name u = true ->
     Z.abs (fz (total_tokens_used (meta d))) < 2 ^ 53 ->
     exists d', fst (useToken now WDone f u) = Some d' /\
       authorized_users d' = authorized_users d /\
       total_tokens_used (meta d') = FNum (fz (total_tokens_used (meta d)) + 1)).
Proof.
  unfold useToken, loadData, lookup_entry. destruct f as [d |]; simpl.
  2:{ split; [split; [discriminate | intros [_ [[usr [H _]] | [d [H _]]]];
                [rewrite lookup_empty in H |]; discriminate] |].
      split; [left; reflexivity |].
      split; [intros usr H; rewrite lookup_empty in H; discriminate | intros d H; discriminate]. }
  destruct (authorized_users d !! u) as [v |] eqn:Hv.
  - destruct (Z.leb_spec (fz (tokens_remaining v)) 0) as [Hr | Hr].
    + split; [split; [discriminate | intros [_ [[usr [H H']] | [d' [H [H' _]]]]]] |].
      * injection H as <-. lia.
      * injection H as <-. congruence.
      * split; [left; reflexivity |]. split; [intros usr H H'; injection H as <-; lia |].
        intros d' H H'. injection H as <-. congruence.
    + split; [split |].
      * destruct w; simpl; try discriminate. intros _. split; [reflexivity | left; eauto].
      * intros [-> _]. reflexivity.
      * split; [destruct w; simpl; intros H; try discriminate; auto |].
        split; [| intros d' H H'; injection H as <-; congruence].
        intros usr H Hp Hu Hr'. injection H as <-. simpl. split.
        -- rewrite lookup_insert_eq. rewrite !to_file_exact by lia. reflexivity.
        -- intros k Hk. apply lookup_insert_ne. congruence.
  - destruct (inherited_name u) eqn:Hi.
    + split; [split |].
      * destruct w; simpl; try discriminate. intros _. split; [reflexivity | right; eauto].
      * intros [-> _]. reflexivity.
      * split; [destruct w; simpl; intros H; try discriminate; auto |].
        split; [intros usr H; discriminate |].
        intros d' H _ _ Ht. injection H as <-. eexists. split; [reflexivity |].
        split; [reflexivity |]. simpl. rewrite to_file_exact by lia. reflexivity.
    + split; [split; [discriminate | intros [_ [[usr [H _]] | [d' [H [_ H']]]]]; [discriminate |]] |].
      * injection H as <-. congruence.
      * split; [left; reflexivity |]. split; [intros usr H; discriminate |].
        intros d' H _ H'. congruence.
Qed.

(** Witness: alice spends one of her two tokens. *)
Lemma useToken_spec_witness :
  users_of (fst (useToken "t" WDone sample_users "alice")) !! "alice" =
  Some (mkUser (FNum 5) (FNum 4) (FNum 1) (Some "alice@example.com")
          "2025-01-01T00:00:00.000Z" (Some "t") true "").
Proof.
  refine (proj1 (proj1 (proj2 (proj2 (useToken_spec "t" WDone sample_users "alice"))) alice
                  _ _ _ _)); [vm_compute; reflexivity | simpl; lia ..].
Defined.

(** X: a mutation whose write is not torn changes at most the record
    it names; on a name with no record that is not inherited from
    [Object.prototype] (for [addUser], on any other name) it changes
    nothing, and a refused write changes nothing either. *)
Theorem mutation_frame (now : string) (w : wres) (f : ufile) (m : mutation) :
  (w <> WTorn -> forall k, k <> target m ->
     users_of (run_mutation now w f m) !! k = users_of f !! k) /\
  (match f with
   | None => True
   | Some d => match m with
               | MAddUser _ _ _ _ => lookup_entry d (target m) <> Absent
               | _ => lookup_entry d (target m) = Absent
               end
   end -> run_mutation now w f m = f) /\
  run_mutation now WRefused f m = f.
Proof.
  destruct f as [d |]; [| destruct m; (split; [reflexivity | split; reflexivity])].
  destruct m as [un | un t ml nt | un a | un n]; simpl;
    unfold useToken, addUser, giveTokens, setTokens; simpl;
    destruct (lookup_entry d un) as [v | |] eqn:He;
    try (destruct (fz (tokens_remaining v) <=? 0));
    (split; [| split]); try reflexivity; try (intros H; exfalso; apply H; reflexivity);
    try (intros H; discriminate); try (intros _; reflexivity);
    intros Hw k Hk; destruct w; simpl; try reflexivity; try congruence;
    apply lookup_insert_ne; congruence.
Qed.

(** Witness: topping up bob, who has no record, does nothing. *)
Lemma mutation_frame_witness :
  run_mutation "t" WDone sample_users (MGiveTokens "bob" (Fin 3)) = sample_users.
Proof.
  exact (proj1 (proj2 (mutation_frame "t" WDone sample_users (MGiveTokens "bob" (Fin 3))))
           ltac:(vm_compute; reflexivity)).
Defined.

(** X: [setUserStatus] on a user with a record reports [saveData]'s
    result.  A refused write leaves the authorization as it was, a
    torn one leaves the file unreadable.  After a completed
    deactivation every request is refused as deactivated; after a
    completed activation the request is authorized exactly when the
    balance is positive.  The token counters are never touched, and a
    deactivation followed by an activation restores an active user's
    record. *)
Theorem setUserStatus_authorization (now now' : string) (w : wres) (f : ufile) (u : string)
    (usr : user) (b : bool) :
  users_of f !! u = Some usr ->
  (snd (setUserStatus now w f u b) = true <-> w = WDone) /\
  checkAuthorization (fst (setUserStatus now WRefused f u b)) u = checkAuthorization f u /\
  checkAuthorization (fst (setUserStatus now WTorn f u b)) u = AuthRejected "Database error" /\
  checkAuthorization (fst (setUserStatus now WDone f u false)) u =
    AuthRejected "User account is deactivated" /\
  (forall r us a ui, checkAuthorization (fst (setUserStatus now WDone f u true)) u = AuthOk r us a ui ->
     r = tokens_remaining usr /\ us = tokens_used usr /\ a = tokens_allocated usr) /\
  ((exists r us a ui, checkAuthorization (fst (setUserStatus now WDone f u true)) u = AuthOk r us a ui) <->
     0 < fz (tokens_remaining usr)) /\
  (is_active usr = true ->
     users_of (fst (setUserStatus now' WDone (fst (setUserStatus now WDone f u false)) u true)) =
     users_of f).
Proof.
  intros H. destruct f as [d |]; [| simpl in H; rewrite lookup_empty in H; discriminate].
  simpl in H. unfold setUserStatus, checkAuthorization, loadData, lookup_entry. rewrite H. simpl.
  rewrite !lookup_insert_eq. simpl.
  split; [destruct w; simpl; split; congruence |].
  split; [rewrite ?H; reflexivity |]. split; [reflexivity |]. split; [reflexivity |].
  destruct (Z.leb_spec (fz (tokens_remaining usr)) 0) as [Hr | Hr].
  - split; [discriminate |].
    split; [split; [intros (? & ? & ? & ? & E); discriminate | lia] |].
    intros Ha. rewrite insert_insert_eq. apply insert_id. rewrite H. destruct usr; simpl in *; congruence.
  - split; [intros r us a ui E; injection E as <- <- <- _; auto |].
    split; [split; [lia | eauto] |].
    intros Ha. rewrite insert_insert_eq. apply insert_id. rewrite H. destruct usr; simpl in *; congruence.
Qed.

(** Witness: alice is switched off, and a refused write of the
    switch keeps her authorized. *)
Lemma setUserStatus_authorization_witness :
  checkAuthorization (fst (setUserStatus "t" WDone sample_users "alice" false)) "alice" =
    AuthRejected "User account is deactivated" /\
  checkAuthorization (fst (setUserStatus "t" WRefused sample_users "alice" false)) "alice" =
    checkAuthorization sample_users "alice".
Proof.
  destruct (setUserStatus_authorization "t" "t'" WDone sample_users "alice" alice false
              ltac:(vm_compute; reflexivity)) as [_ [H1 [_ [H2 _]]]].
  split; [exact H2 | exact H1].
Defined.

(** X: [addUser] on a readable file and a name that has no record and
    is not inherited from [Object.prototype] reports [saveData]'s
    result.  After a completed write the new record has [tokens]
    (as [JSON.stringify] writes it) allocated and remaining, none
    used, no [last_used], is active and carries the given email, so
    [getUser] returns it and [checkAuthorization] authorizes it
    exactly when [tokens] is a positive finite number; adding the
    name again fails and writes nothing. *)
Theorem addUser_then_lookup (now : string) (w : wres) (d : udata) (u : string) (tokens : num)
    (mail : option string) (nts : string) :
  lookup_entry d u = Absent ->
  (snd (addUser now w (Some d) u tokens mail nts) = true <-> w = WDone) /\
  getUser (fst (addUser now WDone (Some d) u tokens mail nts)) u =
    Own (mkUser (to_file tokens) (FNum 0) (to_file tokens) mail now None true nts) /\
  (forall z, tokens = Fin z -> 0 < z ->
   checkAuthorization (fst (addUser now WDone (Some d) u tokens mail nts)) u =
     AuthOk (FNum z) (FNum 0) (FNum z) (mkUser (FNum z) (FNum 0) (FNum z) mail now None true nts)) /\
  ((forall z, tokens = Fin z -> z <= 0) ->
   checkAuthorization (fst (addUser now WDone (Some d) u tokens mail nts)) u =
     AuthRejected "No tokens remaining") /\
  addUser now w (fst (addUser now WDone (Some d) u tokens mail nts)) u tokens mail nts =
    (fst (addUser now WDone (Some d) u tokens mail nts), false).
Proof.
  intros H. unfold addUser, getUser, checkAuthorization, loadData. rewrite H.
  unfold lookup_entry at 1 2 3. simpl. rewrite lookup_insert_eq.
  split; [destruct w; simpl; split; congruence |].
  split; [reflexivity |].
  split; [intros z -> Hz; simpl; destruct (Z.leb_spec z 0); [lia | reflexivity] |].
  split; [| unfold lookup_entry; simpl; rewrite lookup_insert_eq; reflexivity].
  intros Hn. destruct tokens as [z | | |]; simpl; try reflexivity.
  specialize (Hn z eq_refl). destruct (Z.leb_spec z 0); [reflexivity | lia].
Qed.

(** Witness: bob is added with three tokens. *)
Lemma addUser_then_lookup_witness :
  checkAuthorization (fst (addUser "t" WDone sample_users "bob" (Fin 3) None "")) "bob" =
    AuthOk (FNum 3) (FNum 0) (FNum 3) (mkUser (FNum 3) (FNum 0) (FNum 3) None "t" None true "").
Proof.
  refine (proj1 (proj2 (proj2 (addUser_then_lookup "t" WDone
           (mkData (<["alice" := alice]> ∅) sample_meta) "bob" (Fin 3) None "" _))) 3 eq_refl _);
    [vm_compute; reflexivity | lia].
Defined.

(** X: a name inherited from [Object.prototype] with no record of its
    own ("constructor", "toString", ...) is taken for an existing
    user.  [checkAuthorization] refuses it as deactivated, [getUser]
    returns the inherited member and [addUser] fails without writing;
    [useToken] and [giveTokens] report success once the write
    completes, no mutation changes a record, yet [giveTokens] adds a
    non-zero amount to [total_tokens_allocated], which breaks a
    consistent metadata block, and [setTokens] turns
    [total_tokens_allocated] into [null] (NaN). *)
Theorem inherited_name_hits (now : string) (w : wres) (d : udata) (u : string)
    (mail : option string) (nts : string) (t k n : num) :
  authorized_users d !! u = None -> inherited_name u = true ->
  checkAuthorization (Some d) u = AuthRejected "User account is deactivated" /\
  getUser (Some d) u = Inherited /\
  addUser now w (Some d) u t mail nts = (Some d, false) /\
  (snd (useToken now w (Some d) u) = true <-> w = WDone) /\
  (snd (giveTokens now w (Some d) u k) = true <-> w = WDone) /\
  (forall m, target m = u -> users_of (run_mutation now WDone (Some d) m) = authorized_users d) /\
  (forall z, meta_consistent (Some d) -> k = Fin z -> z <> 0 ->
     Z.abs (fz (total_tokens_allocated (meta d))) <= 2 ^ 52 -> Z.abs z <= 2 ^ 52 ->
     ~ meta_consistent (fst (giveTokens now WDone (Some d) u k))) /\
  (exists d', fst (setTokens now WDone (Some d) u n) = Some d' /\
     total_tokens_allocated (meta d') = FNull).
Proof.
  intros Hn Hi.
  assert (He : lookup_entry d u = Inherited) by (unfold lookup_entry; rewrite Hn, Hi; reflexivity).
  unfold checkAuthorization, getUser, addUser, useToken, giveTokens, setTokens, loadData.
  rewrite He. split; [reflexivity |]. split; [reflexivity |]. split; [reflexivity |].
  split; [destruct w; simpl; split; congruence |].
  split; [destruct w; simpl; split; congruence |].
  split.
  - intros m Hm. destruct m; simpl in Hm; subst; simpl;
      unfold useToken, addUser, giveTokens, setTokens; simpl; rewrite He; reflexivity.
  - split.
    + intros z [Hs [Ha Hu]] -> Hz Hta Hk. simpl. intros [_ [Ha' _]].
      simpl in Ha'. rewrite to_file_exact in Ha' by lia. simpl in Ha'. lia.
    + eexists. split; [reflexivity |]. simpl. destruct n; reflexivity.
Qed.

(** Witness: "constructor" is topped up by 5 on alice's ledger. *)
Lemma inherited_name_hits_witness :
  snd (giveTokens "t" WDone sample_users "constructor" (Fin 5)) = true /\
  ~ meta_consistent (fst (giveTokens "t" WDone sample_users "constructor" (Fin 5))).
Proof.
  destruct (inherited_name_hits "t" WDone alice_data
              "constructor" None "" (Fin 5) (Fin 5) (Fin 5)
              ltac:(vm_compute; reflexivity) eq_refl)
    as [_ [_ [_ [_ [Hg [_ [Hm _]]]]]]].
  split; [apply Hg; reflexivity |].
  refine (Hm 5 sample_users_consistent eq_refl _ _ _); [lia | vm_compute; discriminate | lia].
Defined.

(** X: a ledger mutation with every count and the amount at most 2^51
    in magnitude keeps [tokens_used + tokens_remaining =
    tokens_allocated] on every record that satisfied it. *)
Theorem mutation_keeps_balance (now : string) (w : wres) (f : ufile) (m : mutation) :
  balanced f -> counts_within (2 ^ 51) f -> amount_within (2 ^ 51) m ->
  balanced (run_mutation now w f m).
Proof.
  intros Hb Hw Ham. destruct f as [d |]; [| destruct m; exact Hb].
  destruct Hw as [Hr _].
  assert (Hsame : forall f', users_of f' = authorized_users d -> balanced f')
    by (intros f' E k v Hk; rewrite E in Hk; exact (Hb k v Hk)).
  assert (Hins : forall f' k v, users_of f' = <[k := v]> (authorized_users d) ->
            fz (tokens_used v) + fz (tokens_remaining v) = fz (tokens_allocated v) -> balanced f')
    by (intros f' k v E Hv j x Hj; rewrite E in Hj;
        apply lookup_insert_Some in Hj as [[_ <-] | [_ Hj]]; [exact Hv | exact (Hb j x Hj)]).
  destruct m as [un | un t ml nt | un a | un n]; simpl in Ham |- *;
    unfold useToken, addUser, giveTokens, setTokens, lookup_entry; simpl;
    (destruct (authorized_users d !! un) as [v |] eqn:Hv; [| destruct (inherited_name un)]);
    try (match type of Ham with ex _ => destruct Ham as [z [-> Hz]] end);
    try (destruct (fz (tokens_remaining v) <=? 0));
    destruct w; simpl; try (apply Hsame; reflexivity);
    try (intros ? ? Hk; cbn [users_of] in Hk; rewrite lookup_empty in Hk; discriminate);
    (eapply Hins; [reflexivity |]); simpl;
    try (specialize (Hb un v Hv); specialize (Hr un v Hv)); simpl in *; exact_arith; lia.
Qed.

(** Witness: alice is topped up by 3 tokens. *)
Lemma mutation_keeps_balance_witness :
  balanced (run_mutation "t" WDone sample_users (MGiveTokens "alice" (Fin 3))).
Proof.
  refine (mutation_keeps_balance "t" WDone sample_users (MGiveTokens "alice" (Fin 3)) _
            sample_users_within _).
  - intros k u Hk. cbn [users_of sample_users authorized_users] in Hk.
    apply lookup_insert_Some in Hk as [[_ <-] | [_ Hk]];
      [reflexivity | rewrite lookup_empty in Hk; discriminate].
  - exists 3. split; [reflexivity | lia].
Defined.

End QuotaMoreProofs.

(** ** Block pump: further properties *)

Module PumpMoreProofs.
Import Pump.
Local Open Scope Z_scope.
Local Open Scope list_scope.

Lemma saved_app (a b : list action) : saved (a ++ b) = saved a ++ saved b.
Proof.
  induction a as [| x a IH]; [reflexivity |]. destruct x; simpl; rewrite ?IH; reflexivity.
Qed.

Lemma count_completed_cons (f : fetch) (fs : list fetch) :
  count_completed (f :: fs) = (if completes f then 1 else 0) + count_completed fs.
Proof. unfold count_completed. simpl. destruct (completes f); simpl; lia. Qed.

(** One pass of the loop: running flag kept, cursor moved by one on a
    processed block, a save only of the new height, when it is a
    positive multiple of the interval, and [persistedBlock] either
    kept or set to that height. *)
Lemma iteration_step (i : Z) (st : pstate) (f : fetch) :
  let st' := fst (iteration i st f) in
  isRunning st' = isRunning st /\
  lastProcessedBlock st' = lastProcessedBlock st + (if completes f then 1 else 0) /\
  fetched (snd (iteration i st f)) = [lastProcessedBlock st + 1] /\
  (forall h, In h (saved (snd (iteration i st f))) ->
     completes f = true /\ h = lastProcessedBlock st + 1 /\ 0 < h /\ Z.rem h i = 0) /\
  (persistedBlock st' = persistedBlock st \/
   (completes f = true /\ persistedBlock st' = Some (lastProcessedBlock st + 1))).
Proof.
  unfold iteration. destruct f as [[|] | |]; simpl;
    try (split; [reflexivity |]; split; [lia |]; split; [reflexivity |];
         split; [intros h [] | left; reflexivity]).
  destruct (Z.rem (lastProcessedBlock st + 1) i =? 0) eqn:Hr.
  - apply Z.eqb_eq in Hr. unfold saveLastBlock. simpl.
    destruct (lastProcessedBlock st + 1 <=? 0) eqn:Hp; simpl.
    + split; [reflexivity |]. split; [reflexivity |]. split; [reflexivity |].
      split; [intros h [] | left; reflexivity].
    + destruct (match lastSavedBlock st with Some s => s =? lastProcessedBlock st + 1 | None => false end);
        simpl.
      * split; [reflexivity |]. split; [reflexivity |]. split; [reflexivity |].
        split; [intros h [] | left; reflexivity].
      * split; [reflexivity |]. split; [reflexivity |]. split; [reflexivity |].
        split; [| right; split; reflexivity].
        intros h [<- | []]. apply Z.leb_gt in Hp. repeat split; lia.
  - simpl. split; [reflexivity |]. split; [reflexivity |]. split; [reflexivity |].
    split; [intros h [] | left; reflexivity].
Qed.

Lemma streamBlocks_stopped (i : Z) (st : pstate) (fs : list fetch) :
  isRunning st = false -> streamBlocks i st fs = (st, []).
Proof. intros H. destruct fs; simpl; rewrite ?H; reflexivity. Qed.

Lemma streamBlocks_fetched (i : Z) (st : pstate) (fs : list fetch) :
  isRunning st = true ->
  fetched (snd (streamBlocks i st fs)) = expected_heights (lastProcessedBlock st) fs.
Proof.
  revert st. induction fs as [| f fs IH]; intros st Hr; [reflexivity |].
  simpl. rewrite Hr.
  destruct (iteration_step i st f) as [H1 [H2 [H3 _]]].
  destruct (iteration i st f) as [st1 a] eqn:Hi. simpl in H1, H2, H3.
  specialize (IH st1 ltac:(rewrite H1; exact Hr)).
  destruct (streamBlocks i st1 fs) as [st2 b] eqn:Hs. simpl in IH |- *.
  rewrite PumpProofs.fetched_app, H3, IH, H2. destruct (completes f); do 2 f_equal; lia.
Qed.

(** X: over a run of the loop the cursor ends exactly the number of
    fully processed blocks further; every save is of a positive height
    that is a multiple of [blockSaveInterval] and lies between the
    start and the end cursor; and a persisted height never runs ahead
    of the cursor. *)
Theorem streamBlocks_progress (i : Z) (st : pstate) (fs : list fetch) :
  isRunning st = true ->
  let st' := fst (streamBlocks i st fs) in
  isRunning st' = true /\
  lastProcessedBlock st' = lastProcessedBlock st + count_completed fs /\
  (forall h, In h (saved (snd (streamBlocks i st fs))) ->
     0 < h /\ Z.rem h i = 0 /\ lastProcessedBlock st < h <= lastProcessedBlock st') /\
  ((forall p, persistedBlock st = Some p -> p <= lastProcessedBlock st) ->
   forall p, persistedBlock st' = Some p -> p <= lastProcessedBlock st').
Proof.
  revert st. induction fs as [| f fs IH]; intros st Hr.
  - simpl. unfold count_completed. simpl. split; [exact Hr |]. split; [lia |].
    split; [intros h [] | auto].
  - simpl. rewrite Hr.
    destruct (iteration_step i st f) as [H1 [H2 [_ [H4 H5]]]].
    destruct (iteration i st f) as [st1 a] eqn:Hi. simpl in H1, H2, H4, H5.
    specialize (IH st1 ltac:(rewrite H1; exact Hr)).
    destruct (streamBlocks i st1 fs) as [st2 b] eqn:Hs. simpl in IH |- *.
    destruct IH as [I1 [I2 [I3 I4]]].
    rewrite count_completed_cons.
    assert (Hc : 0 <= count_completed fs) by (unfold count_completed; lia).
    split; [exact I1 |]. split; [lia |]. split.
    + intros h Hin. rewrite saved_app in Hin. apply in_app_or in Hin as [Hin | Hin].
      * destruct (H4 h Hin) as [Hf [-> [Hp Hm]]]. rewrite Hf in *. repeat split; lia.
      * destruct (I3 h Hin) as [Hp [Hm Hb]]. destruct (completes f); repeat split; lia.
    + intros Hinv. apply I4. intros p Hp.
      destruct H5 as [H5 | [Hf H5]]; rewrite H5 in Hp.
      * specialize (Hinv p Hp). destruct (completes f); lia.
      * injection Hp as <-. rewrite Hf in H2. lia.
Qed.

(** Witness: from cursor 18 with interval 20, two processed blocks
    around a miss save height 20. *)
Lemma streamBlocks_progress_witness :
  lastProcessedBlock (fst (streamBlocks 20 (mkP true 18 None None)
                             [FBlock ProcDone; FNone; FBlock ProcDone])) = 18 + 2.
Proof.
  exact (proj1 (proj2 (streamBlocks_progress 20 (mkP true 18 None None)
                         [FBlock ProcDone; FNone; FBlock ProcDone] eq_refl))).
Defined.

Lemma loadLastBlock_payload (b : Z) (t : string) (cur : Z) :
  loadLastBlock (LBParsed (last_block_payload b t)) cur = b.
Proof. reflexivity. Qed.

(** X: [stop] on a positive cursor clears the running flag, writes that
    cursor whatever was saved before, and the loop does nothing
    afterwards; a monitor constructed from the written file resumes at
    exactly that cursor, whatever [LAST_PROCESSED_BLOCK] says. On a
    cursor that is not positive, [stop] writes nothing. *)
Theorem stop_persists_cursor (st : pstate) (t : string) (envBlock i : Z) (fs : list fetch) :
  (0 < lastProcessedBlock st ->
   isRunning (fst (stop st)) = false /\
   lastProcessedBlock (fst (stop st)) = lastProcessedBlock st /\
   persistedBlock (fst (stop st)) = Some (lastProcessedBlock st) /\
   snd (stop st) = [ASave (lastProcessedBlock st)] /\
   streamBlocks i (fst (stop st)) fs = (fst (stop st), []) /\
   initialCursor (LBParsed (last_block_payload (lastProcessedBlock st) t)) envBlock =
     lastProcessedBlock st) /\
  (lastProcessedBlock st <= 0 ->
   snd (stop st) = [] /\ persistedBlock (fst (stop st)) = persistedBlock st /\
   isRunning (fst (stop st)) = false).
Proof.
  unfold stop, saveLastBlockF.
  destruct (Z.leb_spec (lastProcessedBlock st) 0) as [Hle | Hgt]; simpl.
  - split; [lia |]. auto.
  - split; [| lia]. intros _.
    split; [reflexivity |]. split; [reflexivity |]. split; [reflexivity |].
    split; [reflexivity |]. split; [apply streamBlocks_stopped; reflexivity |].
    unfold initialCursor. rewrite loadLastBlock_payload.
    destruct (Z.eqb_spec (lastProcessedBlock st) 0); [lia | reflexivity].
Qed.

(** Witness: stopping at height 37. *)
Lemma stop_persists_cursor_witness :
  persistedBlock (fst (stop (mkP true 37 (Some 20) (Some 20)))) = Some 37.
Proof.
  exact (proj1 (proj2 (proj2 (proj1 (stop_persists_cursor (mkP true 37 (Some 20) (Some 20))
                                       "t" 0 20 []) ltac:(simpl; lia))))).
Defined.

(** X: [stop] does not wait for the pass in flight. When the block
    being fetched arrives after [stop], it is processed and the cursor
    moves past the persisted height; unless the new height is a
    multiple of the interval, the file keeps the older height, and a
    restart from it fetches that already processed block again. *)
Theorem stop_inflight_reprocesses (st : pstate) (i : Z) (t : string) (envBlock : Z)
    (head : option Z) (f : fetch) (fs : list fetch) :
  0 < lastProcessedBlock st ->
  Z.rem (lastProcessedBlock st + 1) i <> 0 ->
  let st2 := fst (iteration i (fst (stop st)) (FBlock ProcDone)) in
  isRunning st2 = false /\
  lastProcessedBlock st2 = lastProcessedBlock st + 1 /\
  persistedBlock st2 = Some (lastProcessedBlock st) /\
  fetched (snd (start i (mkP false (initialCursor (LBParsed (last_block_payload
                                       (lastProcessedBlock st) t)) envBlock)
                           None (Some (lastProcessedBlock st))) head (f :: fs))) =
    (lastProcessedBlock st + 1) :: expected_heights (lastProcessedBlock st + (if completes f then 1 else 0)) fs.
Proof.
  intros Hp Hr st2.
  assert (Hs : fst (stop st) = mkP false (lastProcessedBlock st) (Some (lastProcessedBlock st))
                                   (Some (lastProcessedBlock st))).
  { unfold stop, saveLastBlockF. destruct (Z.leb_spec (lastProcessedBlock st) 0); [lia |]. reflexivity. }
  assert (Hst2 : st2 = mkP false (lastProcessedBlock st + 1) (Some (lastProcessedBlock st))
                           (Some (lastProcessedBlock st))).
  { unfold st2. rewrite Hs. unfold iteration. simpl.
    destruct (Z.eqb_spec (Z.rem (lastProcessedBlock st + 1) i) 0); [contradiction | reflexivity]. }
  rewrite Hst2. simpl. split; [reflexivity |]. split; [reflexivity |]. split; [reflexivity |].
  unfold initialCursor. rewrite loadLastBlock_payload.
  destruct (Z.eqb_spec (lastProcessedBlock st) 0); [lia |].
  unfold start. cbn [isRunning lastProcessedBlock lastSavedBlock persistedBlock].
  destruct (Z.eqb_spec (lastProcessedBlock st) 0); [lia |]. cbv beta iota.
  rewrite streamBlocks_fetched by reflexivity. simpl.
  destruct (completes f); do 2 f_equal; lia.
Qed.

(** Witness: stop at 37 with interval 20 while block 38 is in flight. *)
Lemma stop_inflight_reprocesses_witness :
  lastProcessedBlock (fst (iteration 20 (fst (stop (mkP true 37 None None))) (FBlock ProcDone))) = 38 /\
  persistedBlock (fst (iteration 20 (fst (stop (mkP true 37 None None))) (FBlock ProcDone))) = Some 37.
Proof.
  destruct (stop_inflight_reprocesses (mkP true 37 None None) 20 "t" 0 None FNone []
              ltac:(simpl; lia) ltac:(simpl; discriminate)) as [_ [H2 [H3 _]]].
  split; [exact H2 | exact H3].
Defined.

(** X: when [last_block.json] is missing, unreadable, or holds no
    numeric [lastProcessedBlock], the constructor falls back to
    [LAST_PROCESSED_BLOCK] if positive and to 0 otherwise; from 0,
    [start] takes the head block height minus one, so the first block
    fetched is the head block, and [start] does nothing when the head
    cannot be read. *)
Theorem startup_cursor (f : lbfile) (envBlock i h : Z) (x : fetch) (fs : list fetch) :
  (f = LBMissing \/ f = LBUnparsable \/
   exists v, f = LBParsed v /\ forall n, Js.get v "lastProcessedBlock" <> Some (Js.JNum n)) ->
  initialCursor f envBlock = (if 0 <? envBlock then envBlock else 0) /\
  (envBlock <= 0 ->
   start i (mkP false (initialCursor f envBlock) None None) None (x :: fs) =
     (mkP false 0 None None, []) /\
   fetched (snd (start i (mkP false (initialCursor f envBlock) None None) (Some h) (x :: fs))) =
     h :: expected_heights (h - 1 + (if completes x then 1 else 0)) fs).
Proof.
  intros Hf.
  assert (Hl : loadLastBlock f 0 = 0).
  { destruct Hf as [-> | [-> | [v [-> Hv]]]]; try reflexivity.
    simpl. destruct (Js.truthy v); [| reflexivity].
    destruct (Js.get v "lastProcessedBlock") as [[] |] eqn:E; try reflexivity.
    exfalso. exact (Hv _ eq_refl). }
  assert (Hc : initialCursor f envBlock = (if 0 <? envBlock then envBlock else 0)).
  { unfold initialCursor. rewrite Hl. reflexivity. }
  split; [exact Hc |]. intros He.
  rewrite Hc. destruct (Z.ltb_spec 0 envBlock); [lia |].
  split; [reflexivity |].
  unfold start. cbn [isRunning lastProcessedBlock lastSavedBlock persistedBlock Z.eqb].
  cbv beta iota.
  rewrite streamBlocks_fetched by reflexivity. simpl.
  replace (h - 1 + 1) with h by lia. destruct (completes x); do 2 f_equal; lia.
Qed.

(** Witness: a document whose height is a string, no fallback, head 500. *)
Lemma startup_cursor_witness :
  fetched (snd (start 20 (mkP false (initialCursor (LBParsed (Js.JObj
             [("lastProcessedBlock", Js.JStr "37")])) 0) None None) (Some 500)
             [FBlock ProcDone; FNone])) = [500; 501].
Proof.
  rewrite (proj2 (proj2 (startup_cursor (LBParsed (Js.JObj [("lastProcessedBlock", Js.JStr "37")]))
                           0 20 500 (FBlock ProcDone) [FNone]
                           ltac:(right; right; eexists; split; [reflexivity | intros n; discriminate]))
                   ltac:(lia))).
  reflexivity.
Defined.

End PumpMoreProofs.

(** ** Shared lemmas for the pipeline *)

Module PipelineLemmas.
Import JsNum Quota Pending Pipeline.
Local Open Scope Z_scope.

Lemma checkAuthorization_ok (f : ufile) (u : string) (r us a : jnum) (ui : user) :
  checkAuthorization f u = AuthOk r us a ui ->
  users_of f !! u = Some ui /\ is_active ui = true /\ 0 < fz (tokens_remaining ui).
Proof.
  unfold checkAuthorization, loadData, lookup_entry. destruct f as [d |]; simpl; [| discriminate].
  destruct (authorized_users d !! u) as [v |]; [| destruct (inherited_name u); discriminate].
  destruct (is_active v) eqn:Ha; simpl; [| discriminate].
  destruct (Z.leb_spec (fz (tokens_remaining v)) 0) as [Hle | Hgt]; [discriminate |].
  intros Heq. injection Heq as _ _ _ <-. auto.
Qed.

Lemma useToken_frame (now : string) (w : wres) (f : ufile) (u k : string) :
  w <> WTorn -> k <> u -> users_of (fst (useToken now w f u)) !! k = users_of f !! k.
Proof.
  intros Hw Hk. unfold useToken, loadData, lookup_entry. destruct f as [d |]; [| reflexivity].
  simpl. destruct (authorized_users d !! u) as [v |]; [| destruct (inherited_name u)];
    try (destruct (fz (tokens_remaining v) <=? 0)); try reflexivity;
    destruct w; simpl; try reflexivity; try congruence.
  apply lookup_insert_ne. congruence.
Qed.

Lemma useToken_refused (now : string) (f : ufile) (u : string) :
  fst (useToken now WRefused f u) = f.
Proof.
  unfold useToken, loadData. destruct f as [d |]; [| reflexivity].
  destruct (lookup_entry d u) as [v | |]; try reflexivity.
  destruct (le (of_file (tokens_remaining v)) (Fin 0)); reflexivity.
Qed.

Lemma useToken_torn (now : string) (f : ufile) (u : string) (usr : user) :
  users_of f !! u = Some usr -> 0 < fz (tokens_remaining usr) ->
  fst (useToken now WTorn f u) = None.
Proof.
  intros H Hp. unfold useToken, loadData, lookup_entry. destruct f as [d |];
    [| simpl in H; rewrite lookup_empty in H; discriminate].
  simpl in H. rewrite H. simpl. destruct (Z.leb_spec (fz (tokens_remaining usr)) 0); [lia |].
  reflexivity.
Qed.

Lemma useToken_hit (now : string) (f : ufile) (u : string) (usr : user) :
  users_of f !! u = Some usr -> 0 < fz (tokens_remaining usr) ->
  Z.abs (fz (tokens_used usr)) < 2 ^ 53 -> fz (tokens_remaining usr) <= 2 ^ 53 ->
  users_of (fst (useToken now WDone f u)) !! u =
    Some (mkUser (tokens_allocated usr) (FNum (fz (tokens_used usr) + 1))
            (FNum (fz (tokens_remaining usr) - 1))
            (email usr) (created_at usr) (Some now) (is_active usr) (notes usr)).
Proof.
  intros H Hp Hu Hr. unfold useToken, loadData, lookup_entry. destruct f as [d |];
    [| simpl in H; rewrite lookup_empty in H; discriminate].
  simpl in H. rewrite H. simpl. destruct (Z.leb_spec (fz (tokens_remaining usr)) 0); [lia |].
  simpl. rewrite lookup_insert_eq. rewrite !NumFacts.to_file_exact by lia. reflexivity.
Qed.

Lemma useToken_meta (now : string) (w : wres) (f : ufile) (u : string) (usr : user) :
  users_of f !! u = Some usr -> meta_consistent f -> used_safe f ->
  meta_consistent (fst (useToken now w f u)).
Proof.
  unfold useToken, loadData, lookup_entry. destruct f as [d |]; [| simpl; tauto].
  simpl. intros Hv [Hn [Ha Hu]] [Hs Ht]. rewrite Hv. simpl.
  destruct (fz (tokens_remaining usr) <=? 0); [simpl; tauto |].
  destruct w; simpl; try tauto.
  specialize (Hs u usr Hv).
  rewrite map_size_insert, !QuotaMoreProofs.sum_with_insert, Hv. simpl.
  rewrite !NumFacts.to_file_exact by lia. simpl. lia.
Qed.

Lemma sample_users_used_safe : used_safe sample_users.
Proof.
  unfold sample_users, used_safe. split; [| vm_compute; reflexivity].
  intros k u Hk. cbn [authorized_users] in Hk.
  apply lookup_insert_Some in Hk as [[_ <-] | [_ Hk]];
    [vm_compute; reflexivity | rewrite lookup_empty in Hk; discriminate].
Qed.

Lemma removePending_In (f : pfile) (u : string) (r : precord) :
  In r (loadPending (removePending f u)) <-> In r (loadPending f) /\ username r <> u.
Proof.
  unfold removePending, savePending. simpl.
  rewrite <- !list_elem_of_In, list_elem_of_filter.
  destruct (String.eqb_spec (username r) u); simpl; intuition congruence.
Qed.

Lemma includes_app_l (a b n : string) :
  includes b n = true -> includes (a ++ b) n = true.
Proof.
  induction a as [| c a IH]; intros H; [exact H |].
  simpl. rewrite (IH H). apply orb_true_r.
Qed.

Lemma includes_self (n b : string) : includes (n ++ b) n = true.
Proof.
  assert (Hp : String.prefix n (n ++ b) = true).
  { induction n as [| c n IH]; [destruct b; reflexivity |].
    simpl. destruct (ascii_dec c c); [exact IH | contradiction]. }
  revert Hp. generalize (n ++ b). intros s. destruct s; simpl; intros ->; reflexivity.
Qed.

Lemma email_channel_effects (e : env) (m : string) (mail : option string) (eff : effect) :
  In eff (snd (email_channel e m mail)) ->
  exists to, eff = ESendMail to /\ (m = "email" \/ m = "both") /\
    email_configured e = true /\ mail = Some to /\ trim to <> "".
Proof.
  unfold email_channel.
  destruct (String.eqb_spec m "email"), (String.eqb_spec m "both"); simpl;
    try (intros []); destruct mail as [em |]; simpl; try (intros []);
    destruct (String.eqb_spec (trim em) ""); simpl; try (intros []);
    unfold sendAccountCredentials; destruct (email_configured e) eqn:Hc; simpl; try (intros []);
    destruct (email_transport e); simpl; intros [<- | []]; eexists; repeat split; auto.
Qed.

Lemma memo_channel_effects (e : env) (cfg : config) (m rq u mp : string) (eff : effect) :
  In eff (snd (memo_channel e cfg m rq u mp)) ->
  exists enc, eff = ETransfer (creatingAccount cfg) rq "0.001 HBD" enc /\
    (m = "hive_memo" \/ m = "both") /\ canSendMemo e (creatingAccount cfg) = true /\
    (exists k, creatingMemoKey cfg = Some k /\ k <> "") /\
    includes enc u = false /\ includes enc mp = false.
Proof.
  unfold memo_channel.
  assert (Hm : m = "hive_memo" \/ m = "both" ->
    In eff (snd (if negb (canSendMemo e (creatingAccount cfg))
                 then (chan_fail "Insufficient HBD for memo transfer", [])
                 else match creatingMemoKey cfg with
                      | None => (chan_fail "Missing faucet memo key", [])
                      | Some k => if String.eqb k "" then (chan_fail "Missing faucet memo key", [])
                                  else sendAccountMemo e cfg k rq u mp
                      end)) ->
    exists enc, eff = ETransfer (creatingAccount cfg) rq "0.001 HBD" enc /\
    (m = "hive_memo" \/ m = "both") /\ canSendMemo e (creatingAccount cfg) = true /\
    (exists k, creatingMemoKey cfg = Some k /\ k <> "") /\
    includes enc u = false /\ includes enc mp = false).
  { intros Hmeth.
    destruct (canSendMemo e (creatingAccount cfg)) eqn:Hc; simpl; [| intros []].
    destruct (creatingMemoKey cfg) as [k |] eqn:Hk; simpl; [| intros []].
    destruct (String.eqb_spec k ""); simpl; [intros [] |].
    unfold sendAccountMemo.
    destruct (get_accounts e rq) as [? | [| a rest]]; simpl; try (intros []).
    destruct (memo_encode e k (memo_key a) ("#" ++ memoMessage u mp)) as [? | enc]; simpl;
      [intros [] |].
    destruct (includes enc u) eqn:Hu; simpl; [intros [] |].
    destruct (includes enc mp) eqn:Hp; simpl; [intros [] |].
    intros Hin. assert (Hin' : In eff [ETransfer (creatingAccount cfg) rq "0.001 HBD" enc])
      by (destruct (transfer_broadcast e); exact Hin).
    destruct Hin' as [<- | []]. exists enc. repeat split; eauto. }
  destruct (String.eqb_spec m "hive_memo"), (String.eqb_spec m "both"); simpl;
    try (apply Hm; auto); intros [].
Qed.

End PipelineLemmas.

(** ** Recovery store and request pipeline: further properties *)

Module PipelineMoreProofs.
Import JsNum Quota Pending Pipeline PipelineLemmas.
Local Open Scope Z_scope.

(** X: [removePending] keeps, in their order, exactly the records of
    other resource names, so none for the removed name is left; and
    removing right after adding a record for a name the store did not
    hold gives back the original list. *)
Theorem removePending_spec (f : pfile) (u : string) (r : precord) :
  loadPending (removePending f u) =
    List.filter (fun x => negb (String.eqb (username x) u)) (loadPending f) /\
  ~ holds (removePending f u) u /\
  (~ holds f (username r) ->
   loadPending (removePending (addPending f r) (username r)) = loadPending f).
Proof.
  split; [| split].
  - unfold removePending, savePending. simpl.
    induction (loadPending f) as [| x l IH]; [reflexivity |].
    simpl. rewrite <- IH, filter_cons. destruct (negb (String.eqb (username x) u)) eqn:E.
    + rewrite decide_True; [reflexivity | exact I].
    + rewrite decide_False; [reflexivity | intros []].
  - intros [x [Hx Hu]]. apply removePending_In in Hx. tauto.
  - intros Hn. unfold removePending, addPending, savePending. simpl.
    assert (Hall : forall x, In x (loadPending f) -> username x <> username r)
      by (intros x Hx Heq; apply Hn; exists x; auto).
    induction (loadPending f) as [| x l IH].
    + simpl. rewrite filter_cons, decide_False; [reflexivity |].
      rewrite String.eqb_refl. intros [].
    + simpl. rewrite filter_cons, decide_True.
      * f_equal. apply IH. intros y Hy. apply Hall. right. exact Hy.
      * destruct (String.eqb_spec (username x) (username r)) as [E | E]; [| exact I].
        exfalso. exact (Hall x (or_introl eq_refl) E).
Qed.

(** Witness: the sample record is added to an empty store, then removed. *)
Lemma removePending_spec_witness :
  loadPending (removePending (addPending (PParsed (Some [])) sample_record) "newuser3") = [].
Proof.
  exact (proj2 (proj2 (removePending_spec (PParsed (Some [])) "newuser3" sample_record))
           (fun '(ex_intro _ x (conj Hx _)) => Hx)).
Defined.

(** X: a request from a requester [checkAuthorization] rejects, or for
    a name that is taken or whose lookup fails, changes no file and
    has no visible action: no broadcast, mail or transfer. *)
Theorem processAccountRequest_noop (e : env) (cfg : config) (st : state) (req : request) :
  ((exists reason, checkAuthorization (st_users st) (req_requester req) = AuthRejected reason) \/
   (exists msg, get_accounts e (req_username req) = RpcErr msg) \/
   (exists a rest, get_accounts e (req_username req) = RpcOk (a :: rest))) ->
  processAccountRequest e cfg st req = (st, []).
Proof.
  intros H. unfold processAccountRequest.
  destruct (checkAuthorization (st_users st) (req_requester req)) as [rs | rm ru ra ui] eqn:Ha;
    [reflexivity |].
  destruct H as [[reason H] | H]; [discriminate |].
  assert (Hav : checkUsernameAvailability e (req_username req) = false).
  { unfold checkUsernameAvailability. destruct H as [[msg ->] | [a [rest ->]]]; reflexivity. }
  unfold createHiveAccount. rewrite Hav. reflexivity.
Qed.

(** Witness: a request from bob, who has no record. *)
Lemma processAccountRequest_noop_witness :
  let e := sample_env (OOk "tx1") (OOk "m1") (OOk "tr1") opaque_encode in
  processAccountRequest e sample_config sample_state (mkRequest "bob" "newuser3" "both") =
    (sample_state, []).
Proof.
  intros e. apply processAccountRequest_noop. left. eexists. vm_compute. reflexivity.
Defined.

(** X: on a fulfilled request ([overallSuccess] true) whose write of
    the data file completes, the pending store keeps every record of
    other names and none of the new account's name; the requester's
    record, its counts being exact in doubles, has one more used and
    one fewer remaining token and [last_used] stamped; no other record
    changes. *)
Theorem processAccountRequest_fulfilled (e : env) (cfg : config) (st : state)
    (req : request) (d : delivery) :
  delivery_of e cfg st req = Some d -> overall d = true -> ledger_write e = WDone ->
  ~ holds (st_pending (fst (processAccountRequest e cfg st req))) (req_username req) /\
  (forall r, In r (loadPending (st_pending st)) -> username r <> req_username req ->
     In r (loadPending (st_pending (fst (processAccountRequest e cfg st req))))) /\
  exists usr, users_of (st_users st) !! req_requester req = Some usr /\
    (Z.abs (fz (tokens_used usr)) < 2 ^ 53 -> fz (tokens_remaining usr) <= 2 ^ 53 ->
     users_of (st_users (fst (processAccountRequest e cfg st req))) !! req_requester req =
       Some (mkUser (tokens_allocated usr) (FNum (fz (tokens_used usr) + 1))
               (FNum (fz (tokens_remaining usr) - 1))
               (email usr) (created_at usr) (Some (now e)) (is_active usr) (notes usr))) /\
    forall k, k <> req_requester req ->
      users_of (st_users (fst (processAccountRequest e cfg st req))) !! k =
      users_of (st_users st) !! k.
Proof.
  intros Hd Ho Hw. unfold delivery_of in Hd. unfold processAccountRequest.
  destruct (checkAuthorization (st_users st) (req_requester req)) as [rs | rm ru ra ui] eqn:Ha;
    [discriminate |].
  destruct (createHiveAccount e (req_username req) (creatingAccount cfg)) as [cr eff] eqn:Hc.
  simpl in Hd. destruct cr as [txid | msg]; [| discriminate].
  injection Hd as <-. rewrite Ho. cbn [fst st_pending st_users]. rewrite Hw.
  apply checkAuthorization_ok in Ha as [Hl [_ Hp]].
  split; [| split].
  - intros [x [Hx Hu]]. apply removePending_In in Hx. tauto.
  - intros r Hr Hu. apply removePending_In. split; [| exact Hu].
    unfold addPending, savePending. simpl. apply in_or_app. left. exact Hr.
  - exists ui. split; [exact Hl |]. split.
    + intros Hu Hr. apply useToken_hit; assumption.
    + intros k Hk. apply useToken_frame; [discriminate | exact Hk].
Qed.

(** Witness: newuser3 requested by alice, both channels delivering. *)
Lemma processAccountRequest_fulfilled_witness :
  let e := sample_env (OOk "tx-newuser3") (OOk "m1") (OOk "tr1") opaque_encode in
  ~ holds (st_pending (fst (processAccountRequest e sample_config sample_state both_request)))
          "newuser3".
Proof.
  intros e.
  exact (proj1 (processAccountRequest_fulfilled e sample_config sample_state both_request
           (deliver e sample_config "both" alice "alice" "newuser3"
              (generateMasterPassword (random_bytes e)))
           ltac:(vm_compute; reflexivity) ltac:(vm_compute; reflexivity) eq_refl)).
Defined.

(** X: on a fulfilled request whose write of the data file fails, the
    pending record of the new account is still removed, yet no token
    is charged: a refused write leaves the ledger as it was, a torn
    one leaves it unreadable. *)
Theorem processAccountRequest_ledger_failure (e : env) (cfg : config) (st : state)
    (req : request) (d : delivery) :
  delivery_of e cfg st req = Some d -> overall d = true ->
  ~ holds (st_pending (fst (processAccountRequest e cfg st req))) (req_username req) /\
  (ledger_write e = WRefused -> st_users (fst (processAccountRequest e cfg st req)) = st_users st) /\
  (ledger_write e = WTorn -> st_users (fst (processAccountRequest e cfg st req)) = None).
Proof.
  intros Hd Ho. unfold delivery_of in Hd. unfold processAccountRequest.
  destruct (checkAuthorization (st_users st) (req_requester req)) as [rs | rm ru ra ui] eqn:Ha;
    [discriminate |].
  destruct (createHiveAccount e (req_username req) (creatingAccount cfg)) as [cr eff] eqn:Hc.
  simpl in Hd. destruct cr as [txid | msg]; [| discriminate].
  injection Hd as <-. rewrite Ho. cbn [fst st_pending st_users].
  apply checkAuthorization_ok in Ha as [Hl [_ Hp]].
  split; [| split].
  - intros [x [Hx Hu]]. apply removePending_In in Hx. tauto.
  - intros Hw. rewrite Hw. apply useToken_refused.
  - intros Hw. rewrite Hw. eapply useToken_torn; eassumption.
Qed.

(** Witness: the write of alice's charge is refused. *)
Lemma processAccountRequest_ledger_failure_witness :
  let e := with_ledger_write (sample_env (OOk "tx-newuser3") (OOk "m1") (OOk "tr1") opaque_encode)
             WRefused in
  st_users (fst (processAccountRequest e sample_config sample_state both_request)) = sample_users.
Proof.
  intros e.
  exact (proj1 (proj2 (processAccountRequest_ledger_failure e sample_config sample_state
           both_request
           (deliver e sample_config "both" alice "alice" "newuser3"
              (generateMasterPassword (random_bytes e)))
           ltac:(vm_compute; reflexivity) ltac:(vm_compute; reflexivity))) eq_refl).
Defined.

(** X: whatever the outcome, [processAccountRequest] keeps the ledger's
    metadata consistent with its records (while fewer tokens were spent
    than doubles count exactly) and, unless the write of the data file
    is torn, changes no record but the requester's, and that one only
    by [useToken]. *)
Theorem processAccountRequest_ledger (e : env) (cfg : config) (st : state) (req : request) :
  (st_users (fst (processAccountRequest e cfg st req)) = st_users st \/
   st_users (fst (processAccountRequest e cfg st req)) =
     fst (useToken (now e) (ledger_write e) (st_users st) (req_requester req))) /\
  (ledger_write e <> WTorn -> forall k, k <> req_requester req ->
     users_of (st_users (fst (processAccountRequest e cfg st req))) !! k =
     users_of (st_users st) !! k) /\
  (meta_consistent (st_users st) -> used_safe (st_users st) ->
   meta_consistent (st_users (fst (processAccountRequest e cfg st req)))).
Proof.
  assert (H : st_users (fst (processAccountRequest e cfg st req)) = st_users st \/
              exists usr, users_of (st_users st) !! req_requester req = Some usr /\
              st_users (fst (processAccountRequest e cfg st req)) =
                fst (useToken (now e) (ledger_write e) (st_users st) (req_requester req))).
  { unfold processAccountRequest.
    destruct (checkAuthorization (st_users st) (req_requester req)) eqn:Ha;
      [left; reflexivity |].
    apply checkAuthorization_ok in Ha as [Hl _].
    destruct (createHiveAccount e (req_username req) (creatingAccount cfg)) as [[txid | msg] eff];
      [| left; reflexivity].
    destruct (overall _); [right; eauto | left; reflexivity]. }
  split; [destruct H as [-> | [usr [_ ->]]]; [left | right]; reflexivity |]. split.
  - intros Hw k Hk. destruct H as [-> | [usr [_ ->]]]; [reflexivity |].
    apply useToken_frame; assumption.
  - intros Hm Hs. destruct H as [-> | [usr [Hl ->]]]; [exact Hm |].
    eapply useToken_meta; eassumption.
Qed.

(** Witness: the ledger stays consistent through a fulfilled request. *)
Lemma processAccountRequest_ledger_witness :
  let e := sample_env (OOk "tx-newuser3") (OOk "m1") (OOk "tr1") opaque_encode in
  meta_consistent (st_users (fst (processAccountRequest e sample_config sample_state both_request))).
Proof.
  intros e.
  exact (proj2 (proj2 (processAccountRequest_ledger e sample_config sample_state both_request))
           ltac:(vm_compute; repeat split) sample_users_used_safe).
Defined.


Lemma createHiveAccount_effects (e : env) (u c : string) :
  (forall x, In x (snd (createHiveAccount e u c)) ->
     x = ECreateAccount c u /\ checkUsernameAvailability e u = true) /\
  (forall t, fst (createHiveAccount e u c) = inl t -> checkUsernameAvailability e u = true).
Proof.
  unfold createHiveAccount. destruct (checkUsernameAvailability e u); simpl.
  - destruct (create_broadcast e); simpl; split; try (intros x [<- | []]; auto); auto.
  - split; [intros x [] | discriminate].
Qed.

(** X: every visible action of [processAccountRequest] comes from an
    authorized, active requester with tokens left and a name the
    node reports free. The only broadcast of a creation is by the
    faucet account for the requested name; a mail goes only to the
    requester's registered, non-blank email, for the methods ["email"]
    and ["both"], with mail configured; a transfer goes only from the
    faucet to the requester, for 0.001 HBD, for the methods
    ["hive_memo"] and ["both"], when the faucet holds at least 0.001
    HBD and has a memo key, with a memo showing neither the new name
    nor the master password. *)
Theorem processAccountRequest_effects_gated (e : env) (cfg : config) (st : state)
    (req : request) (eff : effect) :
  In eff (snd (processAccountRequest e cfg st req)) ->
  exists ui, users_of (st_users st) !! req_requester req = Some ui /\
    is_active ui = true /\ 0 < fz (tokens_remaining ui) /\
    checkUsernameAvailability e (req_username req) = true /\
    match eff with
    | ECreateAccount c n => c = creatingAccount cfg /\ n = req_username req
    | ESendMail to =>
        (req_method req = "email" \/ req_method req = "both") /\
        email_configured e = true /\ requesterEmail ui = Some to /\ trim to <> ""
    | ETransfer from to amt memo =>
        from = creatingAccount cfg /\ to = req_requester req /\ amt = "0.001 HBD" /\
        (req_method req = "hive_memo" \/ req_method req = "both") /\
        canSendMemo e (creatingAccount cfg) = true /\
        (exists k, creatingMemoKey cfg = Some k /\ k <> "") /\
        includes memo (req_username req) = false /\
        includes memo (generateMasterPassword (random_bytes e)) = false
    end.
Proof.
  unfold processAccountRequest.
  destruct (checkAuthorization (st_users st) (req_requester req)) as [rs | rm ru ra ui] eqn:Ha;
    [intros [] |].
  apply checkAuthorization_ok in Ha as [Hl [Hact Hp]].
  destruct (createHiveAccount_effects e (req_username req) (creatingAccount cfg)) as [Hc1 Hc2].
  destruct (createHiveAccount e (req_username req) (creatingAccount cfg)) as [cr eff1] eqn:Hc.
  simpl in Hc1, Hc2.
  assert (Hcr : In eff eff1 -> exists ui0, users_of (st_users st) !! req_requester req = Some ui0 /\
    is_active ui0 = true /\ 0 < fz (tokens_remaining ui0) /\
    checkUsernameAvailability e (req_username req) = true /\
    match eff with
    | ECreateAccount c n => c = creatingAccount cfg /\ n = req_username req
    | ESendMail to =>
        (req_method req = "email" \/ req_method req = "both") /\
        email_configured e = true /\ requesterEmail ui0 = Some to /\ trim to <> ""
    | ETransfer from to amt memo =>
        from = creatingAccount cfg /\ to = req_requester req /\ amt = "0.001 HBD" /\
        (req_method req = "hive_memo" \/ req_method req = "both") /\
        canSendMemo e (creatingAccount cfg) = true /\
        (exists k, creatingMemoKey cfg = Some k /\ k <> "") /\
        includes memo (req_username req) = false /\
        includes memo (generateMasterPassword (random_bytes e)) = false
    end).
  { intros Hin. destruct (Hc1 eff Hin) as [-> Hav]. exists ui. repeat split; auto. }
  destruct cr as [txid | msg]; [| exact Hcr].
  pose proof (Hc2 txid eq_refl) as Hav.
  assert (Hdel : In eff (delivery_effects (deliver e cfg (req_method req) ui (req_requester req)
                   (req_username req) (generateMasterPassword (random_bytes e)))) ->
    exists ui0, users_of (st_users st) !! req_requester req = Some ui0 /\
    is_active ui0 = true /\ 0 < fz (tokens_remaining ui0) /\
    checkUsernameAvailability e (req_username req) = true /\
    match eff with
    | ECreateAccount c n => c = creatingAccount cfg /\ n = req_username req
    | ESendMail to =>
        (req_method req = "email" \/ req_method req = "both") /\
        email_configured e = true /\ requesterEmail ui0 = Some to /\ trim to <> ""
    | ETransfer from to amt memo =>
        from = creatingAccount cfg /\ to = req_requester req /\ amt = "0.001 HBD" /\
        (req_method req = "hive_memo" \/ req_method req = "both") /\
        canSendMemo e (creatingAccount cfg) = true /\
        (exists k, creatingMemoKey cfg = Some k /\ k <> "") /\
        includes memo (req_username req) = false /\
        includes memo (generateMasterPassword (random_bytes e)) = false
    end).
  { unfold deliver.
    pose proof (email_channel_effects e (req_method req) (requesterEmail ui) eff) as Hem.
    pose proof (memo_channel_effects e cfg (req_method req) (req_requester req) (req_username req)
                  (generateMasterPassword (random_bytes e)) eff) as Hmm.
    destruct (email_channel e (req_method req) (requesterEmail ui)) as [er effa].
    destruct (memo_channel e cfg (req_method req) (req_requester req) (req_username req)
                (generateMasterPassword (random_bytes e))) as [mr effb].
    simpl in Hem, Hmm |- *. intros Hin. apply in_app_or in Hin as [Hin | Hin].
    - destruct (Hem Hin) as [to [-> [Hm [Hcf [Hto Htr]]]]].
      exists ui. repeat split; auto.
    - destruct (Hmm Hin) as [enc [-> [Hm [Hcs [Hk [Hu Hmp]]]]]].
      exists ui. repeat split; auto. }
  destruct (overall _); simpl; intros Hin; apply in_app_or in Hin as [Hin | Hin]; auto.
Qed.

(** Witness: the mail sent for newuser3 goes to alice's address. *)
Lemma processAccountRequest_effects_gated_witness :
  let e := sample_env (OOk "tx-newuser3") (OOk "m1") (OOk "tr1") opaque_encode in
  exists ui, users_of (st_users sample_state) !! "alice" = Some ui /\
    requesterEmail ui = Some "alice@example.com".
Proof.
  intros e.
  destruct (processAccountRequest_effects_gated e sample_config sample_state both_request
              (ESendMail "alice@example.com") ltac:(vm_compute; auto))
    as [ui [Hl [_ [_ [_ [_ [_ [Hm _]]]]]]]].
  exists ui. split; [exact Hl | exact Hm].
Defined.

(** X: a [delivery_method] other than ["email"], ["hive_memo"] and
    ["both"] runs neither channel: both results are
    [{ success: false }] without error, nothing is sent, and
    [overallSuccess] is false. *)
Theorem deliver_unknown_method (e : env) (cfg : config) (m : string) (ui : user)
    (rq u mp : string) :
  m <> "email" -> m <> "hive_memo" -> m <> "both" ->
  deliver e cfg m ui rq u mp = mkDelivery (mkChan false None) (mkChan false None) false [].
Proof.
  intros H1 H2 H3. unfold deliver, email_channel, memo_channel, overallSuccess.
  apply String.eqb_neq in H1, H2, H3. rewrite H1, H2, H3. reflexivity.
Qed.

(** Witness: the method ["sms"]. *)
Lemma deliver_unknown_method_witness :
  let e := sample_env (OOk "tx1") (OOk "m1") (OOk "tr1") opaque_encode in
  overall (deliver e sample_config "sms" alice "alice" "newuser3" "P5abc") = false.
Proof.
  intros e.
  rewrite (deliver_unknown_method e sample_config "sms" alice "alice" "newuser3" "P5abc");
    [reflexivity | discriminate | discriminate | discriminate].
Defined.

(** X: the memo text shows both the new name and the master password,
    so an encoder that returns its input unchanged is always caught:
    [sendAccountMemo] then fails and broadcasts nothing, for every
    name and password. *)
Theorem sendAccountMemo_clear_encoder (e : env) (cfg : config) (k rcpt u mp : string) :
  (forall priv pub msg, memo_encode e priv pub msg = OOk msg) ->
  success (fst (sendAccountMemo e cfg k rcpt u mp)) = false /\
  snd (sendAccountMemo e cfg k rcpt u mp) = [].
Proof.
  intros He.
  assert (Hu : includes ("#" ++ memoMessage u mp) u = true).
  { unfold memoMessage. apply (includes_app_l "#"), (includes_app_l "Account created: "),
      includes_self. }
  unfold sendAccountMemo.
  destruct (get_accounts e rcpt) as [m | [| a rest]]; try (split; reflexivity).
  rewrite He, Hu. split; reflexivity.
Qed.

(** Witness: the clear encoder of the samples. *)
Lemma sendAccountMemo_clear_encoder_witness :
  let e := sample_env (OOk "tx1") (OOk "m1") (OOk "tr1") clear_encode in
  snd (sendAccountMemo e sample_config "5Kfaucetmemo" "alice" "newuser3" "P5abc") = [].
Proof.
  intros e.
  exact (proj2 (sendAccountMemo_clear_encoder e sample_config "5Kfaucetmemo" "alice"
                  "newuser3" "P5abc" (fun _ _ _ => eq_refl))).
Defined.


Lemma base58_index (bytes : list Z) (i : nat) :
  (Z.to_nat (Z.modulo (nth (Nat.modulo i (List.length bytes)) bytes 0%Z)
                      (Z.of_nat (String.length base58Chars))) < String.length base58Chars)%nat.
Proof.
  change (String.length base58Chars) with 58%nat.
  pose proof (Z.mod_pos_bound (nth (Nat.modulo i (List.length bytes)) bytes 0%Z) (Z.of_nat 58)
                ltac:(lia)). lia.
Qed.

Lemma get_In (s : string) (n : nat) (c : ascii) :
  String.get n s = Some c -> In c (list_ascii_of_string s).
Proof.
  revert n. induction s as [| c' s IH]; intros n H; [destruct n; discriminate |].
  destruct n as [| n]; simpl in H |- *.
  - injection H as ->. left. reflexivity.
  - right. exact (IH n H).
Qed.

Lemma get_lt (n : nat) (s : string) :
  (n < String.length s)%nat -> exists c, String.get n s = Some c.
Proof.
  revert n. induction s as [| c s IH]; intros n H; simpl in H; [lia |].
  destruct n as [| n]; simpl; [eauto |]. apply IH. lia.
Qed.

Lemma password_chars_length (bytes : list Z) (i k : nat) :
  String.length (password_chars bytes i k) = k.
Proof.
  revert i. induction k as [| k IH]; intros i; [reflexivity |]. cbn [password_chars].
  match goal with |- context [String.get ?x base58Chars] =>
    destruct (get_lt x base58Chars (base58_index bytes i)) as [c Hc]; rewrite Hc end.
  simpl. rewrite IH. reflexivity.
Qed.

Lemma password_chars_alphabet (bytes : list Z) (i k n : nat) (c : ascii) :
  String.get n (password_chars bytes i k) = Some c -> In c (list_ascii_of_string base58Chars).
Proof.
  revert i n. induction k as [| k IH]; intros i n H; [destruct n; discriminate |].
  cbn [password_chars] in H. match type of H with context [String.get ?x base58Chars] =>
    destruct (String.get x base58Chars) as [c' |] eqn:Hg end.
  - destruct n as [| n]; simpl in H.
    + injection H as ->. exact (get_In _ _ _ Hg).
    + exact (IH _ _ H).
  - exact (IH _ _ H).
Qed.

(** X: [generateMasterPassword] always yields 52 characters: ["P5"]
    followed by 50 characters of [base58Chars], so never ["0"], ["O"],
    ["I"] or ["l"], whatever bytes [crypto.randomBytes] returns. *)
Theorem generateMasterPassword_shape (bytes : list Z) :
  String.length (generateMasterPassword bytes) = 52%nat /\
  String.substring 0 2 (generateMasterPassword bytes) = "P5" /\
  forall (n : nat) (c : ascii), (2 <= n)%nat ->
    String.get n (generateMasterPassword bytes) = Some c ->
    In c (list_ascii_of_string base58Chars) /\
    c <> "0"%char /\ c <> "O"%char /\ c <> "I"%char /\ c <> "l"%char.
Proof.
  unfold generateMasterPassword.
  pose proof (password_chars_length bytes 0 50) as Hlen.
  pose proof (password_chars_alphabet bytes 0 50) as Halpha.
  generalize dependent (password_chars bytes 0 50). intros p Hlen Halpha.
  split; [| split].
  - change (S (S (String.length p)) = 52%nat). rewrite Hlen. reflexivity.
  - simpl. destruct p; reflexivity.
  - intros n c Hn Hg.
    destruct n as [| [| n]]; [lia | lia |]. change (String.get n p = Some c) in Hg.
    pose proof (Halpha n c Hg) as Hin. split; [exact Hin |].
    assert (Hall : forallb (fun c => negb (Ascii.eqb c "0") && negb (Ascii.eqb c "O") &&
                                     negb (Ascii.eqb c "I") && negb (Ascii.eqb c "l"))
                     (list_ascii_of_string base58Chars) = true) by reflexivity.
    rewrite forallb_forall in Hall. specialize (Hall c Hin).
    apply andb_prop in Hall as [Hall H4]. apply andb_prop in Hall as [Hall H3].
    apply andb_prop in Hall as [H1 H2].
    apply negb_true_iff, Ascii.eqb_neq in H1, H2, H3, H4. auto.
Qed.

(** Witness: the password from the bytes 0..31. *)
Lemma generateMasterPassword_shape_witness :
  String.get 2%nat (generateMasterPassword (List.map Z.of_nat (seq 0 32))) = Some "1"%char /\
  In "1"%char (list_ascii_of_string base58Chars).
Proof.
  split; [vm_compute; reflexivity |].
  exact (proj1 (proj2 (proj2 (generateMasterPassword_shape (List.map Z.of_nat (seq 0 32))))
                  2%nat "1"%char ltac:(lia) ltac:(vm_compute; reflexivity))).
Defined.

End PipelineMoreProofs.
